(** * Voice chat assistant: the ChatBot component

    A shallow embedding of [src/components/ChatBot.tsx]: the React state and
    refs of the component, its event handlers and asynchronous
    continuations, and the callbacks React, the browser timers, the speech
    recognition engine, the network and the audio element feed back into
    it.

    Conventions.
    - A JavaScript string is the list of its UTF-16 code units.
    - [Date.now()] is supplied by the platform; a message id is the number
      whose decimal rendering the source stores.
    - Every function of the component is a closure over the constants of
      the render that created it.  Each handler therefore takes the
      captured render [c] explicitly and reads the state variables
      ([isSpeaking], [voiceEnabled], ...) from [c]; refs are read from the
      live world; state setters write the live state.
    - Console output and styling are left out. *)

From Stdlib Require Import NArith String Ascii.
From stdpp Require Import base list gmap.

Open Scope N_scope.
Open Scope list_scope.

(** ** Text *)

Abbreviation jsstring := (list N).

Definition lit (s : string) : jsstring :=
  map N_of_ascii (list_ascii_of_string s).

(** WhiteSpace and LineTerminator code points of ECMAScript: what
    [String.prototype.trim] strips and what [\s] matches. *)
Definition is_whitespace (c : N) : bool :=
  (c =? 9) || (c =? 10) || (c =? 11) || (c =? 12) || (c =? 13) || (c =? 32)
  || (c =? 160) || (c =? 5760) || ((8192 <=? c) && (c <=? 8202))
  || (c =? 8232) || (c =? 8233) || (c =? 8239) || (c =? 8287)
  || (c =? 12288) || (c =? 65279).

Fixpoint trimStart (s : jsstring) : jsstring :=
  match s with
  | [] => []
  | c :: rest => if is_whitespace c then trimStart rest else s
  end.

Definition trim (s : jsstring) : jsstring :=
  rev (trimStart (rev (trimStart s))).

(** Truthiness of a string value: the empty string is falsy. *)
Definition truthy (s : jsstring) : bool :=
  match s with [] => false | _ => true end.

(** Truthiness of a possibly undefined string. *)
Definition truthy_opt (o : option jsstring) : bool :=
  match o with Some s => truthy s | None => false end.

(** ** formatResponse

    Four global regular-expression replacements, in order.  Each pass
    scans left to right; [skip] counts the code units of the current match
    still to be dropped from the input. *)

Definition is_digit (c : N) : bool := (48 <=? c) && (c <=? 57).

(** [.] matches any code unit except the line terminators. *)
Definition is_line_terminator (c : N) : bool :=
  (c =? 10) || (c =? 13) || (c =? 8232) || (c =? 8233).

(** Lazy [(.*?)\*\*]: the shortest prefix free of line terminators that is
    followed by two asterisks. *)
Fixpoint bold_close (s : jsstring) : option jsstring :=
  match s with
  | 42 :: 42 :: _ => Some []
  | c :: rest =>
      if is_line_terminator c then None
      else match bold_close rest with
           | Some inner => Some (c :: inner)
           | None => None
           end
  | [] => None
  end.

(** [.replace(/\*\*(.*?)\*\*/g, "<strong>$1</strong>")] *)
Fixpoint replace_bold (skip : nat) (s : jsstring) : jsstring :=
  match s with
  | [] => []
  | c :: rest =>
      match skip with
      | S k => replace_bold k rest
      | O =>
          match c, rest with
          | 42, 42 :: after =>
              match bold_close after with
              | Some inner =>
                  lit "<strong>" ++ inner ++ lit "</strong>"
                    ++ replace_bold (3 + length inner) rest
              | None => c :: replace_bold 0 rest
              end
          | _, _ => c :: replace_bold 0 rest
          end
      end
  end.

(** Greedy [[^\n]*]. *)
Fixpoint line_rest (s : jsstring) : jsstring :=
  match s with
  | [] => []
  | c :: rest => if c =? 10 then [] else c :: line_rest rest
  end.

(** [.replace(/- ([^\n]+)/g, "• $1")]; the bullet is U+2022. *)
Fixpoint replace_bullets (skip : nat) (s : jsstring) : jsstring :=
  match s with
  | [] => []
  | c :: rest =>
      match skip with
      | S k => replace_bullets k rest
      | O =>
          match c, rest with
          | 45, 32 :: after =>
              match line_rest after with
              | [] => c :: replace_bullets 0 rest
              | item =>
                  8226 :: 32 :: item ++ replace_bullets (1 + length item) rest
              end
          | _, _ => c :: replace_bullets 0 rest
          end
      end
  end.

(** Greedy [\d*]. *)
Fixpoint digits (s : jsstring) : jsstring :=
  match s with
  | [] => []
  | c :: rest => if is_digit c then c :: digits rest else []
  end.

(** [\d+\.\s] anchored at the head of [s]: the matched text. *)
Definition numbered_match (s : jsstring) : option jsstring :=
  match digits s with
  | [] => None
  | ds =>
      match drop (length ds) s with
      | 46 :: w :: _ => if is_whitespace w then Some (ds ++ [46; w]) else None
      | _ => None
      end
  end.

(** [.replace(/\d+\.\s/g, "<br /><br /><strong>$&</strong>")] *)
Fixpoint replace_numbered (skip : nat) (s : jsstring) : jsstring :=
  match s with
  | [] => []
  | c :: rest =>
      match skip with
      | S k => replace_numbered k rest
      | O =>
          match numbered_match s with
          | Some m =>
              lit "<br /><br /><strong>" ++ m ++ lit "</strong>"
                ++ replace_numbered (length m - 1) rest
          | None => c :: replace_numbered 0 rest
          end
      end
  end.

(** [.replace(/(?:\r\n|\r|\n)/g, "<br />")] *)
Fixpoint replace_newlines (s : jsstring) : jsstring :=
  match s with
  | [] => []
  | 13 :: 10 :: rest => lit "<br />" ++ replace_newlines rest
  | c :: rest =>
      if (c =? 13) || (c =? 10) then lit "<br />" ++ replace_newlines rest
      else c :: replace_newlines rest
  end.

Definition formatResponse (text : jsstring) : jsstring :=
  replace_newlines (replace_numbered 0 (replace_bullets 0 (replace_bold 0 text))).

(** ** Data model *)

Inductive Sender := user | bot.

Record Message := {
  sender : Sender;
  text : jsstring;
  id : N;
}.

(** The [useState] variables of the component.  A value of this type is
    also what a closure captures: the constants of one render. *)
Record State := {
  messages : list Message;
  query : jsstring;
  loading : bool;
  muted : bool;
  isListening : bool;
  voiceEnabled : bool;
  speechSupported : bool;
  permissionStatus : string;
  currentSpeakingId : option N;
  isProcessingVoice : bool;
  isSpeaking : bool;
}.

(** Callbacks handed to [setTimeout], each with the render it closes over. *)
Inductive Task :=
  | TRestart (c : State)                     (* restartRecognition, 1000 ms *)
  | TSettle (c : State)                      (* startRecognition, after the 200 ms wait *)
  | TRetry (c : State)                       (* startRecognition catch, 2000 ms *)
  | TResume (c : State)                      (* after playback or Stop, 500 ms *)
  | TDebounce (c : State) (transcript : jsstring). (* onresult, 500 ms *)

(** Promises the component awaits. *)
Inductive Request :=
  | RPermissionQuery                         (* navigator.permissions.query *)
  | RGetUserMedia (c : State)                (* requestMicrophonePermission in toggleVoiceInput *)
  | RChat (c : State) (input : jsstring)     (* fetch /chat in sendMessage *)
  | RTts (c : State) (messageId : N)         (* fetch audio/speech in speakWithOpenAI *)
  | RPlay (c : State) (audio : nat).         (* audio.play() *)

(** How a promise settles. *)
Inductive Outcome :=
  | PermissionState (st : string)
  | MediaGranted
  | ChatResponse (ok : bool) (response : option jsstring)
  | TtsResponse (ok : bool)
  | PlayStarted
  | Rejected.

(** An [Audio] element: its object URL and the render its [onended] and
    [onerror] handlers close over. *)
Record Audio := {
  audioUrl : nat;
  audioClosure : State;
}.

(** Calls into the platform, in the order they are made. *)
Inductive Command :=
  | RecStop (rec : nat)
  | RecStart (rec : nat)
  | FetchChat (body_query : jsstring)
  | FetchTts (input : jsstring)
  | CreateObjectURL (url : nat)
  | RevokeObjectURL (url : nat)
  | AudioPlay (audio : nat)
  | AudioPause (audio : nat)
  | AudioRewind (audio : nat)
  | GetUserMedia
  | TrackStop
  | PermissionsQuery.

Record World := {
  state : State;                      (* latest value of every state variable *)
  rendered : State;                   (* constants of the last committed render *)
  effectDeps : bool * bool * bool;    (* [speechSupported, voiceEnabled, isSpeaking] at the last run of the recognition effect *)
  effectCleanup : bool;               (* that run returned a cleanup function *)
  permissionListener : bool;          (* the 'change' listener is installed *)
  openaiApiKey : option jsstring;     (* process.env.REACT_APP_OPENAI_API_KEY *)
  recognitionRef : option nat;
  restartTimeoutRef : option nat;
  isStartingRef : bool;
  currentAudioRef : option nat;
  recognitions : list State;          (* engine objects created so far: the render their handlers close over *)
  timers : gmap nat (N * Task);       (* pending timeouts: delay in ms and callback *)
  nextTimer : nat;
  requests : gmap nat Request;        (* pending promises *)
  nextRequest : nat;
  audios : list Audio;                (* Audio elements created so far *)
  nextUrl : nat;
  trace : list Command;
}.

(** What the platform decides when a handler runs. *)
Record Platform := {
  now : N;                 (* Date.now() *)
  stop_throws : bool;      (* recognition.stop() throws *)
  start_throws : bool;     (* recognition.start() throws *)
}.

(** ** Record updates *)

Section StateUpdates.
Variable s : State.

Definition with_messages (v : list Message) : State :=
  {| messages := v; query := query s; loading := loading s;
     muted := muted s; isListening := isListening s;
     voiceEnabled := voiceEnabled s; speechSupported := speechSupported s;
     permissionStatus := permissionStatus s;
     currentSpeakingId := currentSpeakingId s;
     isProcessingVoice := isProcessingVoice s;
     isSpeaking := isSpeaking s |}.

Definition with_query (v : jsstring) : State :=
  {| messages := messages s; query := v; loading := loading s;
     muted := muted s; isListening := isListening s;
     voiceEnabled := voiceEnabled s; speechSupported := speechSupported s;
     permissionStatus := permissionStatus s;
     currentSpeakingId := currentSpeakingId s;
     isProcessingVoice := isProcessingVoice s;
     isSpeaking := isSpeaking s |}.

Definition with_loading (v : bool) : State :=
  {| messages := messages s; query := query s; loading := v;
     muted := muted s; isListening := isListening s;
     voiceEnabled := voiceEnabled s; speechSupported := speechSupported s;
     permissionStatus := permissionStatus s;
     currentSpeakingId := currentSpeakingId s;
     isProcessingVoice := isProcessingVoice s;
     isSpeaking := isSpeaking s |}.

Definition with_muted (v : bool) : State :=
  {| messages := messages s; query := query s; loading := loading s;
     muted := v; isListening := isListening s;
     voiceEnabled := voiceEnabled s; speechSupported := speechSupported s;
     permissionStatus := permissionStatus s;
     currentSpeakingId := currentSpeakingId s;
     isProcessingVoice := isProcessingVoice s;
     isSpeaking := isSpeaking s |}.

Definition with_isListening (v : bool) : State :=
  {| messages := messages s; query := query s; loading := loading s;
     muted := muted s; isListening := v; voiceEnabled := voiceEnabled s;
     speechSupported := speechSupported s;
     permissionStatus := permissionStatus s;
     currentSpeakingId := currentSpeakingId s;
     isProcessingVoice := isProcessingVoice s;
     isSpeaking := isSpeaking s |}.

Definition with_voiceEnabled (v : bool) : State :=
  {| messages := messages s; query := query s; loading := loading s;
     muted := muted s; isListening := isListening s; voiceEnabled := v;
     speechSupported := speechSupported s;
     permissionStatus := permissionStatus s;
     currentSpeakingId := currentSpeakingId s;
     isProcessingVoice := isProcessingVoice s;
     isSpeaking := isSpeaking s |}.

Definition with_speechSupported (v : bool) : State :=
  {| messages := messages s; query := query s; loading := loading s;
     muted := muted s; isListening := isListening s;
     voiceEnabled := voiceEnabled s; speechSupported := v;
     permissionStatus := permissionStatus s;
     currentSpeakingId := currentSpeakingId s;
     isProcessingVoice := isProcessingVoice s;
     isSpeaking := isSpeaking s |}.

Definition with_permissionStatus (v : string) : State :=
  {| messages := messages s; query := query s; loading := loading s;
     muted := muted s; isListening := isListening s;
     voiceEnabled := voiceEnabled s; speechSupported := speechSupported s;
     permissionStatus := v; currentSpeakingId := currentSpeakingId s;
     isProcessingVoice := isProcessingVoice s;
     isSpeaking := isSpeaking s |}.

Definition with_currentSpeakingId (v : option N) : State :=
  {| messages := messages s; query := query s; loading := loading s;
     muted := muted s; isListening := isListening s;
     voiceEnabled := voiceEnabled s; speechSupported := speechSupported s;
     permissionStatus := permissionStatus s; currentSpeakingId := v;
     isProcessingVoice := isProcessingVoice s;
     isSpeaking := isSpeaking s |}.

Definition with_isProcessingVoice (v : bool) : State :=
  {| messages := messages s; query := query s; loading := loading s;
     muted := muted s; isListening := isListening s;
     voiceEnabled := voiceEnabled s; speechSupported := speechSupported s;
     permissionStatus := permissionStatus s;
     currentSpeakingId := currentSpeakingId s; isProcessingVoice := v;
     isSpeaking := isSpeaking s |}.

Definition with_isSpeaking (v : bool) : State :=
  {| messages := messages s; query := query s; loading := loading s;
     muted := muted s; isListening := isListening s;
     voiceEnabled := voiceEnabled s; speechSupported := speechSupported s;
     permissionStatus := permissionStatus s;
     currentSpeakingId := currentSpeakingId s;
     isProcessingVoice := isProcessingVoice s; isSpeaking := v |}.

End StateUpdates.

Section WorldUpdates.
Variable w : World.

Definition with_state (v : State) : World :=
  {| state := v; rendered := rendered w; effectDeps := effectDeps w;
     effectCleanup := effectCleanup w;
     permissionListener := permissionListener w;
     openaiApiKey := openaiApiKey w; recognitionRef := recognitionRef w;
     restartTimeoutRef := restartTimeoutRef w;
     isStartingRef := isStartingRef w;
     currentAudioRef := currentAudioRef w; recognitions := recognitions w;
     timers := timers w; nextTimer := nextTimer w; requests := requests w;
     nextRequest := nextRequest w; audios := audios w;
     nextUrl := nextUrl w; trace := trace w |}.

Definition with_rendered (v : State) : World :=
  {| state := state w; rendered := v; effectDeps := effectDeps w;
     effectCleanup := effectCleanup w;
     permissionListener := permissionListener w;
     openaiApiKey := openaiApiKey w; recognitionRef := recognitionRef w;
     restartTimeoutRef := restartTimeoutRef w;
     isStartingRef := isStartingRef w;
     currentAudioRef := currentAudioRef w; recognitions := recognitions w;
     timers := timers w; nextTimer := nextTimer w; requests := requests w;
     nextRequest := nextRequest w; audios := audios w;
     nextUrl := nextUrl w; trace := trace w |}.

Definition with_effectDeps (v : bool * bool * bool) : World :=
  {| state := state w; rendered := rendered w; effectDeps := v;
     effectCleanup := effectCleanup w;
     permissionListener := permissionListener w;
     openaiApiKey := openaiApiKey w; recognitionRef := recognitionRef w;
     restartTimeoutRef := restartTimeoutRef w;
     isStartingRef := isStartingRef w;
     currentAudioRef := currentAudioRef w; recognitions := recognitions w;
     timers := timers w; nextTimer := nextTimer w; requests := requests w;
     nextRequest := nextRequest w; audios := audios w;
     nextUrl := nextUrl w; trace := trace w |}.

Definition with_effectCleanup (v : bool) : World :=
  {| state := state w; rendered := rendered w; effectDeps := effectDeps w;
     effectCleanup := v; permissionListener := permissionListener w;
     openaiApiKey := openaiApiKey w; recognitionRef := recognitionRef w;
     restartTimeoutRef := restartTimeoutRef w;
     isStartingRef := isStartingRef w;
     currentAudioRef := currentAudioRef w; recognitions := recognitions w;
     timers := timers w; nextTimer := nextTimer w; requests := requests w;
     nextRequest := nextRequest w; audios := audios w;
     nextUrl := nextUrl w; trace := trace w |}.

Definition with_permissionListener (v : bool) : World :=
  {| state := state w; rendered := rendered w; effectDeps := effectDeps w;
     effectCleanup := effectCleanup w; permissionListener := v;
     openaiApiKey := openaiApiKey w; recognitionRef := recognitionRef w;
     restartTimeoutRef := restartTimeoutRef w;
     isStartingRef := isStartingRef w;
     currentAudioRef := currentAudioRef w; recognitions := recognitions w;
     timers := timers w; nextTimer := nextTimer w; requests := requests w;
     nextRequest := nextRequest w; audios := audios w;
     nextUrl := nextUrl w; trace := trace w |}.

Definition with_recognitionRef (v : option nat) : World :=
  {| state := state w; rendered := rendered w; effectDeps := effectDeps w;
     effectCleanup := effectCleanup w;
     permissionListener := permissionListener w;
     openaiApiKey := openaiApiKey w; recognitionRef := v;
     restartTimeoutRef := restartTimeoutRef w;
     isStartingRef := isStartingRef w;
     currentAudioRef := currentAudioRef w; recognitions := recognitions w;
     timers := timers w; nextTimer := nextTimer w; requests := requests w;
     nextRequest := nextRequest w; audios := audios w;
     nextUrl := nextUrl w; trace := trace w |}.

Definition with_restartTimeoutRef (v : option nat) : World :=
  {| state := state w; rendered := rendered w; effectDeps := effectDeps w;
     effectCleanup := effectCleanup w;
     permissionListener := permissionListener w;
     openaiApiKey := openaiApiKey w; recognitionRef := recognitionRef w;
     restartTimeoutRef := v; isStartingRef := isStartingRef w;
     currentAudioRef := currentAudioRef w; recognitions := recognitions w;
     timers := timers w; nextTimer := nextTimer w; requests := requests w;
     nextRequest := nextRequest w; audios := audios w;
     nextUrl := nextUrl w; trace := trace w |}.

Definition with_isStartingRef (v : bool) : World :=
  {| state := state w; rendered := rendered w; effectDeps := effectDeps w;
     effectCleanup := effectCleanup w;
     permissionListener := permissionListener w;
     openaiApiKey := openaiApiKey w; recognitionRef := recognitionRef w;
     restartTimeoutRef := restartTimeoutRef w; isStartingRef := v;
     currentAudioRef := currentAudioRef w; recognitions := recognitions w;
     timers := timers w; nextTimer := nextTimer w; requests := requests w;
     nextRequest := nextRequest w; audios := audios w;
     nextUrl := nextUrl w; trace := trace w |}.

Definition with_currentAudioRef (v : option nat) : World :=
  {| state := state w; rendered := rendered w; effectDeps := effectDeps w;
     effectCleanup := effectCleanup w;
     permissionListener := permissionListener w;
     openaiApiKey := openaiApiKey w; recognitionRef := recognitionRef w;
     restartTimeoutRef := restartTimeoutRef w;
     isStartingRef := isStartingRef w; currentAudioRef := v;
     recognitions := recognitions w; timers := timers w;
     nextTimer := nextTimer w; requests := requests w;
     nextRequest := nextRequest w; audios := audios w;
     nextUrl := nextUrl w; trace := trace w |}.

Definition with_recognitions (v : list State) : World :=
  {| state := state w; rendered := rendered w; effectDeps := effectDeps w;
     effectCleanup := effectCleanup w;
     permissionListener := permissionListener w;
     openaiApiKey := openaiApiKey w; recognitionRef := recognitionRef w;
     restartTimeoutRef := restartTimeoutRef w;
     isStartingRef := isStartingRef w;
     currentAudioRef := currentAudioRef w; recognitions := v;
     timers := timers w; nextTimer := nextTimer w; requests := requests w;
     nextRequest := nextRequest w; audios := audios w;
     nextUrl := nextUrl w; trace := trace w |}.

Definition with_timers (v : gmap nat (N * Task)) : World :=
  {| state := state w; rendered := rendered w; effectDeps := effectDeps w;
     effectCleanup := effectCleanup w;
     permissionListener := permissionListener w;
     openaiApiKey := openaiApiKey w; recognitionRef := recognitionRef w;
     restartTimeoutRef := restartTimeoutRef w;
     isStartingRef := isStartingRef w;
     currentAudioRef := currentAudioRef w; recognitions := recognitions w;
     timers := v; nextTimer := nextTimer w; requests := requests w;
     nextRequest := nextRequest w; audios := audios w;
     nextUrl := nextUrl w; trace := trace w |}.

Definition with_nextTimer (v : nat) : World :=
  {| state := state w; rendered := rendered w; effectDeps := effectDeps w;
     effectCleanup := effectCleanup w;
     permissionListener := permissionListener w;
     openaiApiKey := openaiApiKey w; recognitionRef := recognitionRef w;
     restartTimeoutRef := restartTimeoutRef w;
     isStartingRef := isStartingRef w;
     currentAudioRef := currentAudioRef w; recognitions := recognitions w;
     timers := timers w; nextTimer := v; requests := requests w;
     nextRequest := nextRequest w; audios := audios w;
     nextUrl := nextUrl w; trace := trace w |}.

Definition with_requests (v : gmap nat Request) : World :=
  {| state := state w; rendered := rendered w; effectDeps := effectDeps w;
     effectCleanup := effectCleanup w;
     permissionListener := permissionListener w;
     openaiApiKey := openaiApiKey w; recognitionRef := recognitionRef w;
     restartTimeoutRef := restartTimeoutRef w;
     isStartingRef := isStartingRef w;
     currentAudioRef := currentAudioRef w; recognitions := recognitions w;
     timers := timers w; nextTimer := nextTimer w; requests := v;
     nextRequest := nextRequest w; audios := audios w;
     nextUrl := nextUrl w; trace := trace w |}.

Definition with_nextRequest (v : nat) : World :=
  {| state := state w; rendered := rendered w; effectDeps := effectDeps w;
     effectCleanup := effectCleanup w;
     permissionListener := permissionListener w;
     openaiApiKey := openaiApiKey w; recognitionRef := recognitionRef w;
     restartTimeoutRef := restartTimeoutRef w;
     isStartingRef := isStartingRef w;
     currentAudioRef := currentAudioRef w; recognitions := recognitions w;
     timers := timers w; nextTimer := nextTimer w; requests := requests w;
     nextRequest := v; audios := audios w; nextUrl := nextUrl w;
     trace := trace w |}.

Definition with_audios (v : list Audio) : World :=
  {| state := state w; rendered := rendered w; effectDeps := effectDeps w;
     effectCleanup := effectCleanup w;
     permissionListener := permissionListener w;
     openaiApiKey := openaiApiKey w; recognitionRef := recognitionRef w;
     restartTimeoutRef := restartTimeoutRef w;
     isStartingRef := isStartingRef w;
     currentAudioRef := currentAudioRef w; recognitions := recognitions w;
     timers := timers w; nextTimer := nextTimer w; requests := requests w;
     nextRequest := nextRequest w; audios := v; nextUrl := nextUrl w;
     trace := trace w |}.

Definition with_nextUrl (v : nat) : World :=
  {| state := state w; rendered := rendered w; effectDeps := effectDeps w;
     effectCleanup := effectCleanup w;
     permissionListener := permissionListener w;
     openaiApiKey := openaiApiKey w; recognitionRef := recognitionRef w;
     restartTimeoutRef := restartTimeoutRef w;
     isStartingRef := isStartingRef w;
     currentAudioRef := currentAudioRef w; recognitions := recognitions w;
     timers := timers w; nextTimer := nextTimer w; requests := requests w;
     nextRequest := nextRequest w; audios := audios w; nextUrl := v;
     trace := trace w |}.

Definition with_trace (v : list Command) : World :=
  {| state := state w; rendered := rendered w; effectDeps := effectDeps w;
     effectCleanup := effectCleanup w;
     permissionListener := permissionListener w;
     openaiApiKey := openaiApiKey w; recognitionRef := recognitionRef w;
     restartTimeoutRef := restartTimeoutRef w;
     isStartingRef := isStartingRef w;
     currentAudioRef := currentAudioRef w; recognitions := recognitions w;
     timers := timers w; nextTimer := nextTimer w; requests := requests w;
     nextRequest := nextRequest w; audios := audios w;
     nextUrl := nextUrl w; trace := v |}.

End WorldUpdates.

(** The state setters of the component: [setX(v)] writes the live state. *)
Definition setMessages (f : list Message -> list Message) (w : World) : World :=
  with_state w (with_messages (state w) (f (messages (state w)))).
Definition setQuery (v : jsstring) (w : World) : World :=
  with_state w (with_query (state w) v).
Definition setLoading (v : bool) (w : World) : World :=
  with_state w (with_loading (state w) v).
Definition setMuted (v : bool) (w : World) : World :=
  with_state w (with_muted (state w) v).
Definition setIsListening (v : bool) (w : World) : World :=
  with_state w (with_isListening (state w) v).
Definition setVoiceEnabled (v : bool) (w : World) : World :=
  with_state w (with_voiceEnabled (state w) v).
Definition setSpeechSupported (v : bool) (w : World) : World :=
  with_state w (with_speechSupported (state w) v).
Definition setPermissionStatus (v : string) (w : World) : World :=
  with_state w (with_permissionStatus (state w) v).
Definition setCurrentSpeakingId (v : option N) (w : World) : World :=
  with_state w (with_currentSpeakingId (state w) v).
Definition setIsProcessingVoice (v : bool) (w : World) : World :=
  with_state w (with_isProcessingVoice (state w) v).
Definition setIsSpeaking (v : bool) (w : World) : World :=
  with_state w (with_isSpeaking (state w) v).

(** ** Platform primitives *)

Definition emit (cmd : Command) (w : World) : World :=
  with_trace w (trace w ++ [cmd]).

(** [setTimeout(task, delay)]: the new timer's id and the world with it
    pending.  Timer ids are positive, hence truthy. *)
Definition setTimeout (task : Task) (delay : N) (w : World) : nat * World :=
  (nextTimer w,
   with_nextTimer (with_timers w (<[nextTimer w := (delay, task)]> (timers w)))
     (S (nextTimer w))).

Definition clearTimeout (t : nat) (w : World) : World :=
  with_timers w (delete t (timers w)).

(** [if (restartTimeoutRef.current) clearTimeout(restartTimeoutRef.current)] *)
Definition clearRestartTimeout (w : World) : World :=
  match restartTimeoutRef w with
  | Some t => clearTimeout t w
  | None => w
  end.

(** A promise the component awaits becomes pending. *)
Definition await (r : Request) (w : World) : World :=
  with_nextRequest (with_requests w (<[nextRequest w := r]> (requests w)))
    (S (nextRequest w)).

(** The component as first rendered; the recognition effect has run once
    with [speechSupported = false] and returned early. *)
Definition initialState : State :=
  {| messages := []; query := []; loading := false; muted := false;
     isListening := false; voiceEnabled := false; speechSupported := false;
     permissionStatus := ""; currentSpeakingId := None;
     isProcessingVoice := false; isSpeaking := false |}.

Definition mount (key : option jsstring) : World :=
  {| state := initialState; rendered := initialState;
     effectDeps := (false, false, false); effectCleanup := false;
     permissionListener := false; openaiApiKey := key;
     recognitionRef := None; restartTimeoutRef := None;
     isStartingRef := false; currentAudioRef := None;
     recognitions := []; timers := ∅; nextTimer := 1;
     requests := ∅; nextRequest := 0; audios := []; nextUrl := 0;
     trace := [] |}.

(** ** The component's functions

    Each definition follows the source function of the same name.  An
    [async] function is cut at its [await]s: the part up to the first
    [await] keeps the function's name, each continuation is a definition
    of its own, resumed when the timer fires or the promise settles. *)

(** A call that may throw: the world after the call and how it ended. *)
Inductive Completion :=
  | Returned (w : World)
  | Thrown (w : World).

(** [recognition.stop()] inside [startRecognition]'s [try]; everywhere else
    the source calls [stop()] outside any [try], where an engine following
    the Web Speech API does not throw. *)
Definition engine_stop (p : Platform) (rec : nat) (w : World) : Completion :=
  if stop_throws p then Thrown (emit (RecStop rec) w)
  else Returned (emit (RecStop rec) w).

Definition engine_start (p : Platform) (rec : nat) (w : World) : Completion :=
  if start_throws p then Thrown (emit (RecStart rec) w)
  else Returned (emit (RecStart rec) w).

(** [checkSpeechSupport], up to [await navigator.permissions.query]. *)
Definition checkSpeechSupport (hasSpeechRecognition secure : bool) (w : World) : World :=
  if negb hasSpeechRecognition then setSpeechSupported false w
  else
    let w := setSpeechSupported true w in
    if negb secure then
      setPermissionStatus "HTTPS required for microphone access" w
    else await RPermissionQuery (emit PermissionsQuery w).

Definition checkSpeechSupport_queried (o : Outcome) (w : World) : World :=
  match o with
  | PermissionState st =>
      with_permissionListener (setPermissionStatus st w) true
  | _ => setPermissionStatus "unknown" w
  end.

(** [restartRecognition] *)
Definition restartRecognition (c : State) (w : World) : World :=
  let w := clearRestartTimeout w in
  if negb (voiceEnabled c) || isSpeaking c then w
  else
    let '(t, w) := setTimeout (TRestart c) 1000 w in
    with_restartTimeoutRef w (Some t).

(** The catch block of [startRecognition]. *)
Definition startRecognition_catch (c : State) (w : World) : World :=
  let w := with_isStartingRef w false in
  let w := setIsListening false w in
  if voiceEnabled c && negb (isSpeaking c) then
    snd (setTimeout (TRetry c) 2000 w)
  else w.

(** [startRecognition], up to the 200 ms wait. *)
Definition startRecognition (c : State) (p : Platform) (w : World) : World :=
  match recognitionRef w with
  | None => w
  | Some rec =>
      if isSpeaking c then w
      else
        let w := clearRestartTimeout w in
        let w := with_isStartingRef w false in
        let w := setIsListening false w in
        let w := match engine_stop p rec w with
                 | Returned w' => w'
                 | Thrown w' => w'        (* catch (e) {} *)
                 end in
        snd (setTimeout (TSettle c) 200 w)
  end.

(** [startRecognition], after the wait. *)
Definition startRecognition_settled (c : State) (p : Platform) (w : World) : World :=
  let w := with_isStartingRef w true in
  match recognitionRef w with
  | Some rec =>
      match engine_start p rec w with
      | Returned w' => w'
      | Thrown w' => startRecognition_catch c w'
      end
  | None => startRecognition_catch c w
  end.

(** The callback [restartRecognition] hands to [setTimeout]. *)
Definition restartRecognition_fired (c : State) (p : Platform) (w : World) : World :=
  if voiceEnabled c && negb (isListening c) && negb (isStartingRef w)
     && negb (isSpeaking c)
  then startRecognition c p w
  else w.

(** [stopRecognition] *)
Definition stopRecognition (w : World) : World :=
  let w := match recognitionRef w with
           | Some rec => emit (RecStop rec) w
           | None => w
           end in
  let w := setIsListening false w in
  let w := with_isStartingRef w false in
  clearRestartTimeout w.

(** [toggleVoiceInput] from [setVoiceEnabled(true)] on. *)
Definition toggleVoiceInput_enable (c : State) (p : Platform) (w : World) : World :=
  let w := setVoiceEnabled true w in
  if isSpeaking c then w else startRecognition c p w.

(** [toggleVoiceInput], up to [await requestMicrophonePermission()]. *)
Definition toggleVoiceInput (c : State) (p : Platform) (w : World) : World :=
  if negb (speechSupported c) then w
  else
    let newVoiceEnabled := negb (voiceEnabled c) in
    if newVoiceEnabled then
      if String.eqb (permissionStatus c) "denied"
         || String.eqb (permissionStatus c) "unknown"
      then await (RGetUserMedia c) (emit GetUserMedia w)
      else toggleVoiceInput_enable c p w
    else stopRecognition (setVoiceEnabled false w).

(** [requestMicrophonePermission] once [getUserMedia] settles, followed by
    the rest of [toggleVoiceInput]. *)
Definition toggleVoiceInput_requested (c : State) (p : Platform) (o : Outcome)
    (w : World) : World :=
  match o with
  | MediaGranted =>
      let w := setPermissionStatus "granted" w in
      let w := emit TrackStop w in
      toggleVoiceInput_enable c p w
  | _ => setPermissionStatus "denied" w
  end.

(** The catch block of [speakWithOpenAI]. *)
Definition speakWithOpenAI_catch (c : State) (w : World) : World :=
  let w := setIsSpeaking false w in
  let w := setCurrentSpeakingId None w in
  let w := with_isStartingRef w false in
  let w := setIsListening false w in
  if voiceEnabled c then snd (setTimeout (TResume c) 500 w) else w.

(** [speakWithOpenAI], up to [await fetch].  The boolean tells whether the
    call has already returned (no key) or is waiting for the TTS reply. *)
Definition speakWithOpenAI (c : State) (text : jsstring) (messageId : N)
    (w : World) : bool * World :=
  if negb (truthy_opt (openaiApiKey w)) then (true, w)
  else
    let w := setIsSpeaking true w in
    let w := setCurrentSpeakingId (Some messageId) w in
    let w := stopRecognition w in
    (false, await (RTts c messageId) (emit (FetchTts text) w)).

(** [audio.onended] *)
Definition audio_onended (c : State) (url : nat) (w : World) : World :=
  let w := emit (RevokeObjectURL url) w in
  let w := with_currentAudioRef w None in
  let w := setIsSpeaking false w in
  let w := setCurrentSpeakingId None w in
  let w := with_isStartingRef w false in
  let w := setIsListening false w in
  if voiceEnabled c then snd (setTimeout (TResume c) 500 w) else w.

(** [audio.onerror] *)
Definition audio_onerror (c : State) (url : nat) (w : World) : World :=
  let w := emit (RevokeObjectURL url) w in
  let w := with_currentAudioRef w None in
  let w := setIsSpeaking false w in
  let w := setCurrentSpeakingId None w in
  let w := with_isStartingRef w false in
  let w := setIsListening false w in
  if voiceEnabled c then snd (setTimeout (TResume c) 500 w) else w.

(** [speakWithOpenAI] once the TTS request settles, up to
    [await audio.play()]. *)
Definition speakWithOpenAI_fetched (c : State) (o : Outcome) (w : World)
    : bool * World :=
  match o with
  | TtsResponse true =>
      let url := nextUrl w in
      let w := with_nextUrl (emit (CreateObjectURL url) w) (S url) in
      let audio := length (audios w) in
      let w := with_audios w (audios w ++ [{| audioUrl := url; audioClosure := c |}]) in
      let w := with_currentAudioRef w (Some audio) in
      (false, await (RPlay c audio) (emit (AudioPlay audio) w))
  | _ => (true, speakWithOpenAI_catch c w)
  end.

(** [speakWithOpenAI] once [audio.play()] settles. *)
Definition speakWithOpenAI_played (c : State) (o : Outcome) (w : World) : World :=
  match o with
  | PlayStarted => w
  | _ => speakWithOpenAI_catch c w
  end.

(** [stopSpeaking] *)
Definition stopSpeaking (c : State) (w : World) : World :=
  let w := match currentAudioRef w with
           | Some audio => emit (AudioRewind audio) (emit (AudioPause audio) w)
           | None => w
           end in
  let w := setIsSpeaking false w in
  let w := setCurrentSpeakingId None w in
  let w := with_isStartingRef w false in
  let w := setIsListening false w in
  if voiceEnabled c then snd (setTimeout (TResume c) 500 w) else w.

(** The error text of [sendMessage]'s catch block: U+26A0 U+FE0F and the
    sentence. *)
Definition connectError : jsstring :=
  [9888; 65039] ++ lit " Failed to connect to assistant.".

(** [sendMessage], up to [await fetch]. *)
Definition sendMessage (c : State) (p : Platform) (textOverride : option jsstring)
    (w : World) : World :=
  let input := match textOverride with
               | Some t => if truthy t then t else query c
               | None => query c
               end in
  if negb (truthy (trim input)) then w
  else
    let messageId := now p in
    let userMessage := {| sender := user; text := input; id := messageId |} in
    let w := setMessages (fun prev => prev ++ [userMessage]) w in
    let w := setLoading true w in
    let w := setQuery [] w in
    await (RChat c input) (emit (FetchChat input) w).

(** [sendMessage] once the backend request settles.  A reply that is not
    [ok], a rejected fetch and a body without a [response] string all end
    in the catch block. *)
Definition sendMessage_fetched (c : State) (p : Platform) (o : Outcome)
    (w : World) : World :=
  match o with
  | ChatResponse true (Some response) =>
      let botMessageId := now p + 1 in
      let formatted := formatResponse response in
      let botMessage := {| sender := bot; text := formatted; id := botMessageId |} in
      let w := setMessages (fun prev => prev ++ [botMessage]) w in
      if negb (muted c) then
        let '(returned, w) := speakWithOpenAI c response botMessageId w in
        if returned then setLoading false w else w
      else setLoading false w
  | _ =>
      let errorId := now p + 2 in
      let w := setMessages
                 (fun prev => prev ++ [{| sender := bot; text := connectError; id := errorId |}]) w in
      setLoading false w
  end.

(** [recognition.onstart] *)
Definition recognition_onstart (w : World) : World :=
  let w := setIsListening true w in
  let w := setPermissionStatus "listening" w in
  with_isStartingRef w false.

(** [recognition.onresult]; [transcript] is
    [event.results[event.resultIndex]?.[0]?.transcript]. *)
Definition recognition_onresult (c : State) (transcript : option jsstring)
    (w : World) : World :=
  if isSpeaking c then w
  else
    match transcript with
    | Some t =>
        if truthy t && (0 <? N.of_nat (length (trim t))) then
          let w := setIsProcessingVoice true w in
          let w := setQuery (trim t) w in
          snd (setTimeout (TDebounce c t) 500 w)
        else w
    | None => w
    end.

(** The callback [onresult] hands to [setTimeout]. *)
Definition recognition_onresult_fired (c : State) (p : Platform)
    (transcript : jsstring) (w : World) : World :=
  let w := sendMessage c p (Some (trim transcript)) w in
  setIsProcessingVoice false w.

(** [recognition.onerror]; [e] is [e.error]. *)
Definition recognition_onerror (c : State) (e : string) (w : World) : World :=
  let w := setIsListening false w in
  let w := with_isStartingRef w false in
  if String.eqb e "not-allowed" then
    setVoiceEnabled false (setPermissionStatus "denied" w)
  else if String.eqb e "no-speech" then
    if voiceEnabled c && negb (isSpeaking c) then restartRecognition c w else w
  else if String.eqb e "audio-capture" then
    setVoiceEnabled false (setPermissionStatus "no-microphone" w)
  else
    if voiceEnabled c && negb (isSpeaking c) then restartRecognition c w else w.

(** [recognition.onend] *)
Definition recognition_onend (c : State) (w : World) : World :=
  let w := setIsListening false w in
  let w := with_isStartingRef w false in
  if voiceEnabled c && negb (isSpeaking c) then restartRecognition c w else w.

(** The cleanup function the recognition effect returns. *)
Definition recognitionEffect_cleanup (w : World) : World :=
  let w := match recognitionRef w with
           | Some rec => emit (RecStop rec) w
           | None => w
           end in
  clearRestartTimeout w.

(** The recognition effect, run for the render [c]: a new engine object
    whose handlers close over [c]. *)
Definition recognitionEffect (c : State) (w : World) : World :=
  if negb (speechSupported c) then with_effectCleanup w false
  else
    let rec := length (recognitions w) in
    let w := with_recognitions w (recognitions w ++ [c]) in
    let w := with_recognitionRef w (Some rec) in
    with_effectCleanup w true.

(** ** React and the platform

    What happens around the component's functions.
    - React commits a render: the controls then carry the handlers of that
      render.  The recognition effect depends on [speechSupported],
      [voiceEnabled] and [isSpeaking]: when one of them changed, the
      cleanup of its previous run is called and the effect runs again,
      which creates a new engine object whose handlers close over the
      committed render.  An engine object created earlier keeps the
      handlers it was given.
    - The user types, presses Enter and clicks the buttons the last
      committed render shows enabled.
    - Timers fire, promises settle, and engine objects and audio elements
      call the handlers assigned to them, each with the closure it was
      created with. *)

Definition deps_of (s : State) : bool * bool * bool :=
  (speechSupported s, voiceEnabled s, isSpeaking s).

Definition deps_eqb (a b : bool * bool * bool) : bool :=
  let '(a1, a2, a3) := a in
  let '(b1, b2, b3) := b in
  Bool.eqb a1 b1 && Bool.eqb a2 b2 && Bool.eqb a3 b3.

(** A render is committed: the handlers of the controls now close over the
    current state; the recognition effect is cleaned up and run again when
    [speechSupported], [voiceEnabled] or [isSpeaking] changed. *)
Definition commit (w : World) : World :=
  let s := state w in
  let w := with_rendered w s in
  if deps_eqb (deps_of s) (effectDeps w) then w
  else
    let w := if effectCleanup w then recognitionEffect_cleanup w else w in
    recognitionEffect s (with_effectDeps w (deps_of s)).

(** The component after its first render and the synchronous part of the
    mount effects. *)
Definition mounted (key : option jsstring) (hasSpeechRecognition secure : bool) : World :=
  checkSpeechSupport hasSpeechRecognition secure (mount key).

Inductive Event :=
  | Render
  | PermissionChanged (st : string)
  | Typed (q : jsstring)
  | EnterPressed
  | VoiceClicked
  | MuteClicked
  | StopClicked
  | RecognitionStarted (rec : nat)
  | RecognitionResult (rec : nat) (transcript : option jsstring)
  | RecognitionError (rec : nat) (e : string)
  | RecognitionEnded (rec : nat)
  | TimerFired (t : nat)
  | Settled (r : nat) (o : Outcome)
  | AudioEnded (audio : nat)
  | AudioErrored (audio : nat).

(** [disabled] of the text input. *)
Definition input_disabled (c : State) : bool :=
  isProcessingVoice c || isSpeaking c.

(** [disabled] of the voice button. *)
Definition voice_disabled (c : State) : bool :=
  negb (speechSupported c) || String.eqb (permissionStatus c) "denied"
  || String.eqb (permissionStatus c) "no-microphone".

Definition run_task (p : Platform) (task : Task) (w : World) : World :=
  match task with
  | TRestart c => restartRecognition_fired c p w
  | TSettle c => startRecognition_settled c p w
  | TRetry c => startRecognition c p w
  | TResume c => startRecognition c p w
  | TDebounce c transcript => recognition_onresult_fired c p transcript w
  end.

(** The outcomes a pending promise can settle with. *)
Definition accepts (r : Request) (o : Outcome) : bool :=
  match r, o with
  | _, Rejected => true
  | RPermissionQuery, PermissionState _ => true
  | RGetUserMedia _, MediaGranted => true
  | RChat _ _, ChatResponse _ _ => true
  | RTts _ _, TtsResponse _ => true
  | RPlay _ _, PlayStarted => true
  | _, _ => false
  end.

(** The continuation of the function that awaits [r].  [sendMessage]
    awaits [speakWithOpenAI] and then calls [setLoading(false)]. *)
Definition resume (p : Platform) (r : Request) (o : Outcome) (w : World) : World :=
  match r with
  | RPermissionQuery => checkSpeechSupport_queried o w
  | RGetUserMedia c => toggleVoiceInput_requested c p o w
  | RChat c _ => sendMessage_fetched c p o w
  | RTts c _ =>
      let '(returned, w) := speakWithOpenAI_fetched c o w in
      if returned then setLoading false w else w
  | RPlay c _ => setLoading false (speakWithOpenAI_played c o w)
  end.

Definition step (p : Platform) (ev : Event) (w : World) : World :=
  match ev with
  | Render => commit w
  | PermissionChanged st =>
      if permissionListener w then setPermissionStatus st w else w
  | Typed q =>
      if input_disabled (rendered w) then w else setQuery q w
  | EnterPressed =>
      if input_disabled (rendered w) then w else sendMessage (rendered w) p None w
  | VoiceClicked =>
      if voice_disabled (rendered w) then w else toggleVoiceInput (rendered w) p w
  | MuteClicked => setMuted (negb (muted (rendered w))) w
  | StopClicked =>
      if isSpeaking (rendered w) then stopSpeaking (rendered w) w else w
  | RecognitionStarted rec =>
      match recognitions w !! rec with
      | Some _ => recognition_onstart w
      | None => w
      end
  | RecognitionResult rec transcript =>
      match recognitions w !! rec with
      | Some c => recognition_onresult c transcript w
      | None => w
      end
  | RecognitionError rec e =>
      match recognitions w !! rec with
      | Some c => recognition_onerror c e w
      | None => w
      end
  | RecognitionEnded rec =>
      match recognitions w !! rec with
      | Some c => recognition_onend c w
      | None => w
      end
  | TimerFired t =>
      match timers w !! t with
      | Some (_, task) => run_task p task (clearTimeout t w)
      | None => w
      end
  | Settled r o =>
      match requests w !! r with
      | Some req =>
          if accepts req o
          then resume p req o (with_requests w (delete r (requests w)))
          else w
      | None => w
      end
  | AudioEnded audio =>
      match audios w !! audio with
      | Some a => audio_onended (audioClosure a) (audioUrl a) w
      | None => w
      end
  | AudioErrored audio =>
      match audios w !! audio with
      | Some a => audio_onerror (audioClosure a) (audioUrl a) w
      | None => w
      end
  end.

(** A run: events in order, each with what the platform decides then. *)
Definition run (evs : list (Platform * Event)) (w : World) : World :=
  fold_left (fun w pe => step (fst pe) (snd pe) w) evs w.

(** The pending timers, as a list of [(id, (delay, callback))]. *)
Definition pending (w : World) : list (nat * (N * Task)) :=
  map_to_list (timers w).

Definition at_ (t : N) : Platform :=
  {| now := t; stop_throws := false; start_throws := false |}.


(** ** Scenarios

    Runs of the component used below, each from the mount.  The page is
    served over HTTPS by a browser that has speech recognition, and an API
    key is configured.  Times are [Date.now()] in milliseconds. *)

Definition key : option jsstring := Some (lit "sk-test").

Definition world_of (evs : list (Platform * Event)) : World :=
  run evs (mounted key true true).

(** First render committed, the permission query answered. *)
Definition ready_events (permission : string) : list (Platform * Event) :=
  [(at_ 0, Render);
   (at_ 10, Settled 0 (PermissionState permission));
   (at_ 10, Render)].

(** The user types "hi" and presses Enter. *)
Definition asked_events : list (Platform * Event) :=
  ready_events "granted"
  ++ [(at_ 1000, Typed (lit "hi")); (at_ 1000, Render);
      (at_ 2000, EnterPressed); (at_ 2000, Render)].

(** The backend answers "hello"; the TTS request is in flight. *)
Definition answered_events : list (Platform * Event) :=
  asked_events
  ++ [(at_ 3000, Settled 1 (ChatResponse true (Some (lit "hello"))))].

(** The TTS reply arrives and playback starts. *)
Definition playing_events : list (Platform * Event) :=
  answered_events
  ++ [(at_ 3000, Render);
      (at_ 4000, Settled 2 (TtsResponse true));
      (at_ 4100, Settled 3 PlayStarted);
      (at_ 4100, Render)].

(** The user clicks Stop during playback. *)
Definition stopped_events : list (Platform * Event) :=
  playing_events ++ [(at_ 5000, StopClicked); (at_ 5000, Render)].

(** Then turns voice input on. *)
Definition voice_on_after_stop_events : list (Platform * Event) :=
  stopped_events ++ [(at_ 6000, VoiceClicked); (at_ 6000, Render)].

(** Voice input turned on from the start: the engine is started 200 ms
    after the click. *)
Definition starting_events (permission : string) : list (Platform * Event) :=
  ready_events permission
  ++ [(at_ 1000, VoiceClicked); (at_ 1000, Render); (at_ 1200, TimerFired 1)].

(** The engine reports that it started. *)
Definition listening_events : list (Platform * Event) :=
  starting_events "granted"
  ++ [(at_ 1300, RecognitionStarted 1); (at_ 1300, Render)].

(** While listening the user types two questions; both answers arrive and
    both are spoken; both clips end. *)
Definition two_answers_events : list (Platform * Event) :=
  listening_events
  ++ [(at_ 2000, Typed (lit "a")); (at_ 2000, Render);
      (at_ 2100, EnterPressed); (at_ 2100, Render);
      (at_ 2500, Typed (lit "b")); (at_ 2500, Render);
      (at_ 2600, EnterPressed); (at_ 2600, Render);
      (at_ 3000, Settled 1 (ChatResponse true (Some (lit "x")))); (at_ 3000, Render);
      (at_ 3100, Settled 2 (ChatResponse true (Some (lit "y")))); (at_ 3100, Render);
      (at_ 4000, Settled 3 (TtsResponse true));
      (at_ 4100, Settled 4 (TtsResponse true));
      (at_ 4200, Settled 5 PlayStarted);
      (at_ 4300, Settled 6 PlayStarted);
      (at_ 5000, AudioEnded 0);
      (at_ 5100, AudioEnded 1)].

(** The engine refuses the microphone right after being started; React
    commits the render before the engine's [end] event arrives. *)
Definition denied_events : list (Platform * Event) :=
  starting_events "prompt"
  ++ [(at_ 1300, RecognitionError 1 "not-allowed"); (at_ 1300, Render)].

(** While listening the user types "hi"; the answer arrives and is
    spoken.  [speakWithOpenAI] stops engine object 1, which raises [end]
    after the render is committed; the restart timer its handler arms
    fires while the clip is playing. *)
Definition self_listening_events : list (Platform * Event) :=
  listening_events
  ++ [(at_ 2000, Typed (lit "hi")); (at_ 2000, Render);
      (at_ 2100, EnterPressed); (at_ 2100, Render);
      (at_ 3000, Settled 1 (ChatResponse true (Some (lit "hello"))));
      (at_ 3000, Render);
      (at_ 3050, RecognitionEnded 1);
      (at_ 3900, Settled 2 (TtsResponse true));
      (at_ 3950, Settled 3 PlayStarted);
      (at_ 4050, TimerFired 2)].

Definition asked : World := world_of asked_events.
Definition answered : World := world_of answered_events.
Definition playing : World := world_of playing_events.
Definition stopped : World := world_of stopped_events.
Definition voice_on_after_stop : World := world_of voice_on_after_stop_events.
Definition listening : World := world_of listening_events.
Definition two_answers : World := world_of two_answers_events.
Definition denied : World := world_of denied_events.
Definition self_listening : World := world_of self_listening_events.

(** Delayed restarts of recognition among the pending timers. *)
Definition is_restart (task : Task) : bool :=
  match task with
  | TRestart _ | TRetry _ | TResume _ => true
  | TSettle _ | TDebounce _ _ => false
  end.

Definition restart_timers (w : World) : list nat :=
  map fst (List.filter (fun entry => is_restart (snd (snd entry))) (pending w)).

Definition is_start (cmd : Command) : bool :=
  match cmd with RecStart _ => true | _ => false end.

Definition is_revoke (url : nat) (cmd : Command) : bool :=
  match cmd with RevokeObjectURL u => Nat.eqb u url | _ => false end.

(** How many times a command satisfying [f] was issued. *)
Definition issued (f : Command -> bool) (w : World) : nat :=
  length (List.filter f (trace w)).

(** ** Properties of worlds and outcomes *)

(** The engine object the component holds was created by the last run of
    the effect: its handlers close over a render with the effect's
    dependencies. *)
Definition effect_current (w : World) : Prop :=
  (forall rec, recognitionRef w = Some rec ->
     exists c, recognitions w !! rec = Some c /\ deps_of c = effectDeps w)
  /\ (speechSupported (state w) = false -> recognitionRef w = None).

(** Every pending callback of [restartRecognition] is the timer
    [restartTimeoutRef] points to. *)
Definition tracked (w : World) : Prop :=
  forall t d c, timers w !! t = Some (d, TRestart c) -> restartTimeoutRef w = Some t.



Definition coconut : jsstring := lit "what recipes use coconut milk".

(** The transcript as an engine may deliver it, with white space around
    the words. *)
Definition spoken : jsstring := [32; 9] ++ coconut ++ [32; 10].

(** While listening on engine object 1 the user types "hi"; the answer
    arrives, [speakWithOpenAI] stops object 1 and the session is Speaking;
    the render is committed, which creates object 2. *)
Definition interrupted_events : list (Platform * Event) :=
  listening_events
  ++ [(at_ 2000, Typed (lit "hi")); (at_ 2000, Render);
      (at_ 2100, EnterPressed); (at_ 2100, Render);
      (at_ 3000, Settled 1 (ChatResponse true (Some (lit "hello"))));
      (at_ 3000, Render)].

(** The run of [self_listening_events] goes on: the 200 ms wait ends and
    [recognition.start()] is called on object 2, which was created while
    the session was Speaking; then the clip ends. *)
Definition unheard_events : list (Platform * Event) :=
  self_listening_events ++ [(at_ 4250, TimerFired 3); (at_ 9000, AudioEnded 0)].

(** ** Plain text

    Code units that can start a match of one of [formatResponse]'s four
    patterns: an asterisk, a hyphen, a digit, a carriage return or a line
    feed. *)
Definition is_markup (c : N) : bool :=
  (c =? 42) || (c =? 45) || is_digit c || (c =? 13) || (c =? 10).

(** Text without any of them. *)
Definition plain (s : jsstring) : bool :=
  forallb (fun c => negb (is_markup c)) s.

(** Text on one line in the sense of the regular expression dot. *)
Definition one_line (s : jsstring) : bool :=
  forallb (fun c => negb (is_line_terminator c)) s.

(** [parts.join(sep)] *)
Fixpoint join (sep : jsstring) (parts : list jsstring) : jsstring :=
  match parts with
  | [] => []
  | [part] => part
  | part :: more => part ++ sep ++ join sep more
  end.

(** An item of a list: plain text, not empty. *)
Definition is_item (s : jsstring) : bool := plain s && negb (Nat.eqb (length s) 0).

(** A number: one or more decimal digits. *)
Definition is_number (s : jsstring) : bool :=
  forallb is_digit s && negb (Nat.eqb (length s) 0).

(** ** Bookkeeping of runs

    Predicates on worlds that the handlers keep true from the mount on,
    and counts over the conversation, the pending promises and the calls
    made. *)

(** Every pending debounce callback was armed for 500 ms, for a transcript
    that is not blank, by a handler that read [isSpeaking] as false. *)
Definition debounced (w : World) : Prop :=
  forall t d c transcript,
    timers w !! t = Some (d, TDebounce c transcript) ->
    d = 500 /\ isSpeaking c = false /\ trim transcript <> [].

(** Every pending continuation of [startRecognition] waits 200 ms and
    belongs to a call that read [isSpeaking] as false. *)
Definition settling (w : World) : Prop :=
  forall t d c, timers w !! t = Some (d, TSettle c) -> d = 200 /\ isSpeaking c = false.

(** Pending timers were armed before the next one will be, and
    [restartTimeoutRef] holds the id of a callback of [restartRecognition],
    pending or not. *)
Definition timers_fresh (w : World) : Prop :=
  (forall t entry, timers w !! t = Some entry -> (t < nextTimer w)%nat)
  /\ (forall t, restartTimeoutRef w = Some t ->
        (t < nextTimer w)%nat
        /\ forall d task, timers w !! t = Some (d, task) -> exists c, task = TRestart c).

(** While voice input is being processed, a debounce callback is pending. *)
Definition processing (w : World) : Prop :=
  isProcessingVoice (state w) = true ->
  exists t d c transcript, timers w !! t = Some (d, TDebounce c transcript).

(** Pending promises were created before the next one will be. *)
Definition fresh (w : World) : Prop :=
  forall r req, requests w !! r = Some req -> (r < nextRequest w)%nat.

(** While the session is Speaking there is a playback handle, or the TTS
    request of a [speakWithOpenAI] call is in flight. *)
Definition speaking_cause (w : World) : Prop :=
  isSpeaking (state w) = true ->
  currentAudioRef w <> None
  \/ exists r c messageId, requests w !! r = Some (RTts c messageId).

(** The promises [sendMessage] waits for, itself or through
    [speakWithOpenAI]. *)
Definition in_flight (r : Request) : bool :=
  match r with
  | RChat _ _ | RTts _ _ | RPlay _ _ => true
  | RPermissionQuery | RGetUserMedia _ => false
  end.

(** While the loading indicator shows, a call of [sendMessage] is waiting. *)
Definition waiting (w : World) : Prop :=
  loading (state w) = true ->
  exists r req, requests w !! r = Some req /\ in_flight req = true.

Definition from_user (m : Message) : bool :=
  match sender m with user => true | bot => false end.

Definition from_bot (m : Message) : bool :=
  match sender m with user => false | bot => true end.

(** How many messages satisfying [f] the conversation shows. *)
Definition shown (f : Message -> bool) (w : World) : nat :=
  length (List.filter f (messages (state w))).

(** The texts of the user's messages in the conversation, oldest first. *)
Definition questions_shown (w : World) : list jsstring :=
  map text (List.filter from_user (messages (state w))).

(** The queries posted to the backend, oldest first. *)
Definition questions_sent (w : World) : list jsstring :=
  omap (fun cmd => match cmd with FetchChat q => Some q | _ => None end) (trace w).

Definition posted (w : World) : Prop :=
  questions_shown w = questions_sent w
  /\ Forall (fun q => trim q <> []) (questions_sent w).

Definition is_chat (r : Request) : bool :=
  match r with RChat _ _ => true | _ => false end.

(** How many of the pending promises are backend requests. *)
Definition chat_count (m : gmap nat Request) : nat :=
  size (filter (fun entry => is_chat (snd entry) = true) m).

Definition answered_or_pending (w : World) : Prop :=
  (shown from_bot w + chat_count (requests w))%nat = shown from_user w.

(** The message marked as being spoken is an answer in the conversation,
    and one is marked exactly while the assistant speaks. *)
Definition marked (w : World) : Prop :=
  match currentSpeakingId (state w) with
  | Some i =>
      isSpeaking (state w) = true
      /\ exists m, In m (messages (state w)) /\ id m = i /\ sender m = bot
  | None => isSpeaking (state w) = false
  end.

(** Calls to the speech engine, the microphone and the permission API. *)
Definition is_speech_command (cmd : Command) : bool :=
  match cmd with
  | RecStop _ | RecStart _ | GetUserMedia | TrackStop | PermissionsQuery => true
  | _ => false
  end.

(** The call that makes the browser ask for the microphone. *)
Definition is_prompt (cmd : Command) : bool :=
  match cmd with GetUserMedia => true | _ => false end.

(** The component in a browser without speech recognition. *)
Definition inert (w : World) : Prop :=
  speechSupported (state w) = false
  /\ speechSupported (rendered w) = false
  /\ voiceEnabled (state w) = false
  /\ isListening (state w) = false
  /\ isProcessingVoice (state w) = false
  /\ recognitionRef w = None
  /\ recognitions w = []
  /\ (forall r c, requests w !! r = Some (RGetUserMedia c) -> False)
  /\ forallb (fun cmd => negb (is_speech_command cmd)) (trace w) = true.

(** The engine refuses to start. *)
Definition start_fails (t : N) : Platform :=
  {| now := t; stop_throws := false; start_throws := true |}.

(** The permission query is not supported: the status is "unknown". *)
Definition unknown_events : list (Platform * Event) :=
  [(at_ 0, Render); (at_ 10, Settled 0 Rejected); (at_ 10, Render)].

(** The session ended while the user was silent; one second later the
    restart stops the engine and arms the start. *)
Definition restarting_events : list (Platform * Event) :=
  listening_events ++ [(at_ 9000, RecognitionEnded 1); (at_ 10000, TimerFired 2)].

(** A transcript has arrived and waits out the debounce. *)
Definition heard_events : list (Platform * Event) :=
  listening_events ++ [(at_ 5000, RecognitionResult 1 (Some coconut))].

(** ** Tactics *)

(** Unfold the state setters and platform primitives, then compute the
    fields of the updated world. *)
Ltac unfold_updates :=
  unfold setMessages, setQuery, setLoading, setMuted, setIsListening,
    setVoiceEnabled, setSpeechSupported, setPermissionStatus,
    setCurrentSpeakingId, setIsProcessingVoice, setIsSpeaking,
    emit, await, setTimeout, clearRestartTimeout, clearTimeout in *.

Ltac read_world := unfold_updates; cbn -[trim formatResponse lit] in *.

Ltac unfold_handlers :=
  unfold commit, recognitionEffect, recognitionEffect_cleanup,
    recognition_onstart, recognition_onresult, recognition_onerror,
    recognition_onend, recognition_onresult_fired, run_task, resume,
    restartRecognition_fired, startRecognition_settled, startRecognition_catch,
    startRecognition, engine_stop, engine_start, restartRecognition,
    toggleVoiceInput, toggleVoiceInput_requested, toggleVoiceInput_enable,
    stopRecognition, sendMessage_fetched, sendMessage, speakWithOpenAI_fetched,
    speakWithOpenAI_played, speakWithOpenAI_catch, speakWithOpenAI,
    audio_onended, audio_onerror, stopSpeaking, checkSpeechSupport_queried in *.

Ltac handler_cases :=
  repeat first [ progress unfold_handlers | progress read_world | case_match ].

Ltac step_cases ev := destruct ev; cbn [step]; handler_cases.

Ltac lookup_cases :=
  repeat match goal with
    | H : <[_:=_]> _ !! _ = Some _ |- _ =>
        apply lookup_insert_Some in H; destruct H as [[? ?]|[? H]]
    | H : delete _ _ !! _ = Some _ |- _ =>
        apply lookup_delete_Some in H; destruct H as [? H]
    end.

(** Decide a property of one code unit by its value. *)
Ltac by_code_unit c :=
  destruct c as [|c]; [try reflexivity; try discriminate|];
  do 6 (try (destruct c as [c|c|]; try reflexivity; try discriminate)).

(** Count the calls satisfying a predicate in an extended trace. *)
Ltac count_issued :=
  unfold issued; read_world; rewrite ?List.filter_app, ?length_app; cbn; try lia.

(** ** Text lemmas *)

Example formatResponse_bullets :
  formatResponse (lit "- Coconut Curry" ++ [10] ++ lit "- Coconut Rice")
  = [8226] ++ lit " Coconut Curry<br />" ++ [8226] ++ lit " Coconut Rice".
Proof. vm_compute. reflexivity. Qed.

Example formatResponse_mixed :
  formatResponse (lit "**Steps** 1. mix" ++ [13; 10] ++ lit "12. serve**")
  = lit "<strong>Steps</strong> <br /><br /><strong>1. </strong>mix<br /><br /><br /><strong>12. </strong>serve**".
Proof. vm_compute. reflexivity. Qed.

Lemma trimStart_head (s : jsstring) :
  match trimStart s with
  | [] => True
  | c :: _ => is_whitespace c = false
  end.
Proof.
  induction s as [|c rest IH]; simpl; [exact I|].
  destruct (is_whitespace c) eqn:Hc; [exact IH | exact Hc].
Qed.

Lemma trimStart_fixed (c : N) (s : jsstring) :
  is_whitespace c = false -> trimStart (c :: s) = c :: s.
Proof. intros Hc. simpl. now rewrite Hc. Qed.

Lemma trimStart_suffix (s : jsstring) : exists ws, s = ws ++ trimStart s.
Proof.
  induction s as [|c rest [ws IH]]; simpl.
  - now exists [].
  - destruct (is_whitespace c).
    + exists (c :: ws). simpl. now rewrite <- IH.
    + now exists [].
Qed.

(** A trimmed string is empty or starts with a character that is not white
    space. *)
Lemma trim_head (s : jsstring) :
  match trim s with
  | [] => True
  | c :: _ => is_whitespace c = false
  end.
Proof.
  unfold trim.
  pose proof (trimStart_head s) as Hhead.
  destruct (trimStart_suffix (rev (trimStart s))) as [ws Hws].
  destruct (trimStart (rev (trimStart s))) as [|x v] eqn:Hv using rev_ind;
    [exact I|].
  clear IHv.
  apply (f_equal (@rev N)) in Hws.
  rewrite rev_involutive, rev_app_distr in Hws.
  rewrite Hws in Hhead.
  destruct (rev (v ++ [x])) as [|y u] eqn:Hr.
  - apply (f_equal (@length N)) in Hr.
    rewrite length_rev, length_app in Hr. simpl in Hr. lia.
  - exact Hhead.
Qed.

Lemma trim_last (s : jsstring) :
  match rev (trim s) with
  | [] => True
  | c :: _ => is_whitespace c = false
  end.
Proof.
  unfold trim. rewrite rev_involutive. apply trimStart_head.
Qed.

Lemma trim_idempotent (s : jsstring) : trim (trim s) = trim s.
Proof.
  pose proof (trim_head s) as Hh. pose proof (trim_last s) as Hl.
  unfold trim at 1.
  destruct (trim s) as [|c u] eqn:Hts; [reflexivity|].
  rewrite (trimStart_fixed c u Hh).
  destruct (rev (c :: u)) as [|d v] eqn:Hr.
  - apply (f_equal (@length N)) in Hr. rewrite length_rev in Hr. discriminate.
  - rewrite (trimStart_fixed d v Hl), <- Hr. apply rev_involutive.
Qed.

Lemma trim_truthy (s : jsstring) : trim s <> [] -> truthy s = true.
Proof. destruct s; [intros H; now elim H | reflexivity]. Qed.

(** ** Transcripts: [recognition.onresult] *)

Lemma onresult_speaking (c : State) (transcript : option jsstring) (w : World) :
  isSpeaking c = true -> recognition_onresult c transcript w = w.
Proof. intros H. unfold recognition_onresult. now rewrite H. Qed.

Lemma onresult_blank (c : State) (t : jsstring) (w : World) :
  trim t = [] -> recognition_onresult c (Some t) w = w.
Proof.
  intros H. unfold recognition_onresult. rewrite H. simpl.
  rewrite andb_false_r. now destruct (isSpeaking c).
Qed.

Lemma onresult_accepts (c : State) (t : jsstring) (w : World) :
  isSpeaking c = false -> trim t <> [] ->
  recognition_onresult c (Some t) w
  = snd (setTimeout (TDebounce c t) 500
           (setQuery (trim t) (setIsProcessingVoice true w))).
Proof.
  intros Hs Ht. unfold recognition_onresult. rewrite Hs.
  rewrite (trim_truthy t Ht).
  destruct (trim t) as [|x u]; [now elim Ht|]. reflexivity.
Qed.

Lemma sendMessage_override (c : State) (p : Platform) (t : jsstring) (w : World) :
  trim t <> [] ->
  sendMessage c p (Some (trim t)) w
  = await (RChat c (trim t))
      (emit (FetchChat (trim t))
         (setQuery []
            (setLoading true
               (setMessages
                  (fun prev => prev ++ [{| sender := user; text := trim t; id := now p |}])
                  w)))).
Proof.
  intros Ht. unfold sendMessage.
  assert (Htr : truthy (trim t) = true) by (destruct (trim t); [now elim Ht | reflexivity]).
  rewrite Htr, trim_idempotent, Htr. reflexivity.
Qed.

(** C9 (failing run). A transcript that is not empty once trimmed,
    delivered to a handler that reads [isSpeaking] as false, arms the
    500 ms debounce timer and sends nothing yet; when that timer fires,
    [sendMessage] appends the trimmed transcript as the user's message and
    posts it as the [query] of the backend request; a transcript that is
    empty once trimmed changes nothing.  So while listening, the
    transcript "what recipes use coconut milk" delivered with white space
    around it is posted without it.  But the handler reads the
    [isSpeaking] of the render that created its engine object: object 2,
    created while the session was Speaking and started during playback,
    delivers the same transcript after the clip has ended, the session no
    longer Speaking, and it is dropped, before the render is committed and
    after it. *)
Theorem transcript_acceptance :
  (forall (c : State) (p : Platform) (t : jsstring) (w w' : World) (timer : nat),
      isSpeaking c = false -> trim t <> [] ->
      (let w1 := recognition_onresult c (Some t) w in
       timers w1 = <[nextTimer w := (500, TDebounce c t)]> (timers w)
       /\ trace w1 = trace w
       /\ requests w1 = requests w
       /\ messages (state w1) = messages (state w))
      /\ (timers w' !! timer = Some (500, TDebounce c t) ->
          let w2 := step p (TimerFired timer) w' in
          trace w2 = trace w' ++ [FetchChat (trim t)]
          /\ requests w2 = <[nextRequest w' := RChat c (trim t)]> (requests w')
          /\ messages (state w2)
             = messages (state w') ++ [{| sender := user; text := trim t; id := now p |}])
      /\ (forall blank : jsstring, trim blank = [] ->
          recognition_onresult c (Some blank) w = w))
  /\ (let w1 := step (at_ 5000) (RecognitionResult 1 (Some spoken)) listening in
      let w2 := step (at_ 5500) (TimerFired 2) w1 in
      isSpeaking (state listening) = false
      /\ query (state w1) = coconut
      /\ trace w1 = trace listening
      /\ trace w2 = trace listening ++ [FetchChat coconut]
      /\ messages (state w2)
         = messages (state listening)
             ++ [{| sender := user; text := coconut; id := 5500 |}]
      /\ (exists c, requests w2 !! nextRequest listening = Some (RChat c coconut)))
  /\ (let w := world_of unheard_events in
      let w' := step (at_ 9050) Render w in
      isSpeaking (state w) = false
      /\ recognitionRef w = Some 2%nat
      /\ map isSpeaking (recognitions w) = [false; false; true]
      /\ List.filter is_start (trace w) = [RecStart 1; RecStart 2]
      /\ step (at_ 9010) (RecognitionResult 2 (Some spoken)) w = w
      /\ isSpeaking (state w') = false
      /\ isSpeaking (rendered w') = false
      /\ last (trace w') = Some (RecStop 2)
      /\ step (at_ 9060) (RecognitionResult 2 (Some spoken)) w' = w').
Proof.
  split; [|split].
  - intros c p t w w' timer Hlistening Htext. split; [|split].
    + rewrite (onresult_accepts c t w Hlistening Htext). read_world. auto.
    + intros Hpending. cbn [step]. rewrite Hpending. cbn [run_task].
      unfold recognition_onresult_fired.
      rewrite (sendMessage_override c p t _ Htext). read_world. auto.
    + intros blank Hblank. now apply onresult_blank.
  - vm_compute. repeat split. eexists. reflexivity.
  - vm_compute. repeat split.
Qed.

(** Scenario B: the transcript arrives while listening; 500 ms later the
    backend is asked for it, trimmed. *)
Lemma transcript_acceptance_witness :
  let w := step (at_ 5000) (RecognitionResult 1 (Some spoken)) listening in
  trace (step (at_ 5500) (TimerFired 2) w) = trace w ++ [FetchChat (trim spoken)].
Proof.
  refine (proj1 (proj1 (proj2 (proj1 transcript_acceptance
            (rendered (world_of (starting_events "granted") )) (at_ 5500) spoken
            listening
            (step (at_ 5000) (RecognitionResult 1 (Some spoken)) listening)
            2%nat _ _)) _)).
  - vm_compute. reflexivity.
  - vm_compute. discriminate.
  - vm_compute. reflexivity.
Defined.

(** ** Fields only React touches *)

Lemma step_openaiApiKey (p : Platform) (ev : Event) (w : World) :
  openaiApiKey (step p ev w) = openaiApiKey w.
Proof. step_cases ev; simplify_eq; reflexivity. Qed.

(** No handler replaces the engine object, runs the effect or changes
    [speechSupported]: only a committed render does the first two. *)
Lemma step_frame (p : Platform) (ev : Event) (w : World) :
  ev <> Render ->
  recognitionRef (step p ev w) = recognitionRef w
  /\ recognitions (step p ev w) = recognitions w
  /\ effectDeps (step p ev w) = effectDeps w
  /\ effectCleanup (step p ev w) = effectCleanup w.
Proof.
  intros Hev. destruct ev; try (now elim Hev); clear Hev;
    cbn [step]; handler_cases; simplify_eq; auto.
Qed.

Lemma step_speechSupported (p : Platform) (ev : Event) (w : World) :
  speechSupported (state (step p ev w)) = speechSupported (state w).
Proof. step_cases ev; simplify_eq; reflexivity. Qed.

Lemma run_snoc (evs : list (Platform * Event)) (p : Platform) (ev : Event) (w : World) :
  run (evs ++ [(p, ev)]) w = step p ev (run evs w).
Proof. unfold run. now rewrite fold_left_app. Qed.

(** Invariants of runs are proved from the last event backwards. *)
Lemma run_ind (P : World -> Prop) (w : World) :
  P w ->
  (forall p ev w', P w' -> P (step p ev w')) ->
  forall evs, P (run evs w).
Proof.
  intros Hw Hstep evs. induction evs as [|[p ev] evs IH] using rev_ind.
  - exact Hw.
  - rewrite run_snoc. now apply Hstep.
Qed.

Lemma deps_eqb_eq (a b : bool * bool * bool) : deps_eqb a b = true -> a = b.
Proof.
  destruct a as [[a1 a2] a3], b as [[b1 b2] b3]. simpl.
  destruct a1, a2, a3, b1, b2, b3; simpl; congruence.
Qed.

Lemma cleanup_frame (w : World) :
  let w' := if effectCleanup w then recognitionEffect_cleanup w else w in
  recognitions w' = recognitions w /\ recognitionRef w' = recognitionRef w
  /\ state w' = state w.
Proof. handler_cases; auto. Qed.

Lemma commit_effect_current (w : World) :
  effect_current w -> effect_current (commit w).
Proof.
  intros [Hobj Hnone]. unfold commit.
  destruct (deps_eqb _ _) eqn:Hdeps.
  - split; [intros rec Href; apply (Hobj rec Href) | exact Hnone].
  - unfold recognitionEffect.
    destruct (cleanup_frame (with_rendered w (state w))) as (Hrecs & Href & Hst).
    cbn [speechSupported state with_rendered] in *.
    set (w1 := if effectCleanup (with_rendered w (state w)) then _ else _) in *.
    destruct (speechSupported (state w)) eqn:Hsup; cbn [negb]; split.
    + intros rec Hrec. cbn in Hrec. simplify_eq.
      exists (state w). cbn. split; [|reflexivity].
      apply list_lookup_middle. reflexivity.
    + cbn. rewrite Hst. cbn. congruence.
    + intros rec Hrec. cbn in Hrec. rewrite Href in Hrec. cbn in Hrec.
      rewrite (Hnone eq_refl) in Hrec. discriminate.
    + intros _. cbn. rewrite Href. cbn. now apply Hnone.
Qed.

Lemma step_effect_current (p : Platform) (ev : Event) (w : World) :
  effect_current w -> effect_current (step p ev w).
Proof.
  intros H.
  assert (Hcase : ev = Render \/ ev <> Render)
    by (destruct ev; first [left; reflexivity | right; discriminate]).
  destruct Hcase as [->|Hev].
  - now apply commit_effect_current.
  - destruct (step_frame p ev w Hev) as (Href & Hrecs & Hdeps & _).
    destruct H as [Hobj Hnone]. split.
    + intros rec. rewrite Href, Hrecs, Hdeps. apply Hobj.
    + rewrite step_speechSupported, Href. exact Hnone.
Qed.

Lemma reachable_effect_current (key : option jsstring) (hasSR secure : bool)
    (evs : list (Platform * Event)) :
  effect_current (run evs (mounted key hasSR secure)).
Proof.
  apply run_ind.
  - split; [|intros _]; unfold mounted; handler_cases;
      unfold checkSpeechSupport; handler_cases; simplify_eq; try discriminate;
      reflexivity.
  - intros p ev w. apply step_effect_current.
Qed.

Lemma commit_deps (w : World) : effectDeps (commit w) = deps_of (state (commit w)).
Proof.
  unfold commit. destruct (deps_eqb _ _) eqn:Hdeps.
  - apply deps_eqb_eq in Hdeps. cbn in *. congruence.
  - unfold recognitionEffect.
    destruct (cleanup_frame (with_rendered w (state w))) as (_ & _ & Hst).
    cbn [speechSupported state with_rendered] in *.
    destruct (speechSupported (state w)); cbn in *; now rewrite Hst.
Qed.

(** C3 (failing run). The handler does drop a transcript when the
    [isSpeaking] it reads is true: the world is left exactly as it was.
    After a committed render that flag is the session's for the engine
    object the component holds.  But an engine object created before the
    session turned Speaking keeps handlers that read [isSpeaking] as
    false: object 1, stopped by [speakWithOpenAI], delivers "hello there"
    while the session is Speaking; the query is stored and the debounce
    armed, and 500 ms later the transcript is posted to the backend and
    shown as the user's message, the session still Speaking. *)
Theorem transcript_while_speaking :
  (forall (c : State) (transcript : option jsstring) (w : World),
      isSpeaking c = true -> recognition_onresult c transcript w = w)
  /\ (forall (key : option jsstring) (hasSR secure : bool)
        (evs : list (Platform * Event)) (p : Platform) (rec : nat)
        (transcript : option jsstring),
      let w := commit (run evs (mounted key hasSR secure)) in
      recognitionRef w = Some rec ->
      isSpeaking (state w) = true ->
      step p (RecognitionResult rec transcript) w = w
      /\ isSpeaking (state (step p (RecognitionResult rec transcript) w)) = true)
  /\ (let w := world_of interrupted_events in
      let w1 := step (at_ 3100) (RecognitionResult 1 (Some (lit "hello there"))) w in
      let w2 := step (at_ 3600) (TimerFired 2) w1 in
      isSpeaking (state w) = true
      /\ isSpeaking (rendered w) = true
      /\ recognitionRef w = Some 2%nat
      /\ map isSpeaking (recognitions w) = [false; false; true]
      /\ List.filter is_start (trace w) = [RecStart 1]
      /\ last (trace w) = Some (RecStop 1)
      /\ query (state w1) = lit "hello there"
      /\ isProcessingVoice (state w1) = true
      /\ map fst (pending w1) = [2%nat]
      /\ isSpeaking (state w2) = true
      /\ trace w2 = trace w ++ [FetchChat (lit "hello there")]
      /\ messages (state w2)
         = messages (state w)
             ++ [{| sender := user; text := lit "hello there"; id := 3600 |}]).
Proof.
  split; [exact onresult_speaking | split].
  - intros key hasSR secure evs p rec transcript w Href Hspeaking.
    assert (Hinv : effect_current w).
    { apply commit_effect_current, reachable_effect_current. }
    destruct Hinv as [Hobj _]. destruct (Hobj rec Href) as (c & Hc & Hdeps).
    unfold w in Hdeps. rewrite commit_deps in Hdeps. fold w in Hdeps.
    assert (Hsp : isSpeaking c = true).
    { unfold deps_of in Hdeps. congruence. }
    cbn [step]. rewrite Hc, (onresult_speaking c transcript w Hsp).
    split; [reflexivity | exact Hspeaking].
  - vm_compute. repeat split.
Qed.

Lemma transcript_while_speaking_witness :
  step (at_ 3500)
    (RecognitionResult 1 (Some (lit "hello")))
    (commit (run answered_events (mounted key true true)))
  = commit (run answered_events (mounted key true true)).
Proof.
  refine (proj1 (proj1 (proj2 transcript_while_speaking) key true true answered_events
                   (at_ 3500) 1%nat (Some (lit "hello")) _ _)).
  - vm_compute. reflexivity.
  - vm_compute. reflexivity.
Defined.

(** ** Without an API key *)

Lemma step_not_speaking (p : Platform) (ev : Event) (w : World) :
  truthy_opt (openaiApiKey w) = false ->
  isSpeaking (state w) = false ->
  isSpeaking (state (step p ev w)) = false.
Proof.
  intros Hkey Hs. step_cases ev; simplify_eq; try assumption; try reflexivity;
    rewrite Hkey in *; discriminate.
Qed.

(** C10. Without an OpenAI API key [speakWithOpenAI] returns at once and
    leaves the world as it is.  A delivered answer, muted or not, then
    only appends the formatted bot message and clears [loading]: no TTS
    request, no call to the engine, no timer, [isSpeaking] unchanged.  And
    from the mounted component no run ever makes [isSpeaking] true. *)
Theorem no_key_no_speech (key : option jsstring) (c : State) (p : Platform)
    (response : jsstring) (w : World)
    (Hkey : truthy_opt key = false) (Hw : openaiApiKey w = key) :
  (forall messageId, speakWithOpenAI c response messageId w = (true, w))
  /\ (let w' := sendMessage_fetched c p (ChatResponse true (Some response)) w in
      messages (state w')
      = messages (state w)
          ++ [{| sender := bot; text := formatResponse response; id := now p + 1 |}]
      /\ loading (state w') = false
      /\ isSpeaking (state w') = isSpeaking (state w)
      /\ trace w' = trace w
      /\ timers w' = timers w
      /\ requests w' = requests w)
  /\ (forall (hasSR secure : bool) (evs : list (Platform * Event)),
      isSpeaking (state (run evs (mounted key hasSR secure))) = false).
Proof.
  subst key. split; [|split].
  - intros messageId. unfold speakWithOpenAI. now rewrite Hkey.
  - unfold sendMessage_fetched, speakWithOpenAI.
    destruct (muted c); cbn; rewrite ?Hkey; cbn; auto 10.
  - intros hasSR secure evs.
    set (P := fun w' => openaiApiKey w' = openaiApiKey w
                        /\ isSpeaking (state w') = false).
    enough (HP : P (run evs (mounted (openaiApiKey w) hasSR secure))) by apply HP.
    apply run_ind.
    + unfold P. now destruct hasSR, secure.
    + intros p' ev w' [Hk Hs]. split.
      * now rewrite step_openaiApiKey.
      * apply step_not_speaking; [now rewrite Hk | exact Hs].
Qed.

Lemma no_key_no_speech_witness :
  isSpeaking
    (state (sendMessage_fetched initialState (at_ 3000)
              (ChatResponse true (Some (lit "hello"))) (mounted None true true)))
  = false.
Proof.
  pose proof (proj1 (proj2 (no_key_no_speech None initialState (at_ 3000) (lit "hello")
                              (mounted None true true) eq_refl eq_refl))) as H.
  cbv zeta in H. destruct H as (_ & _ & H & _). rewrite H. reflexivity.
Defined.

(** ** The playback handle and Speaking *)

Lemma step_fresh (p : Platform) (ev : Event) (w : World) :
  fresh w -> fresh (step p ev w).
Proof.
  unfold fresh. intros Hfresh.
  step_cases ev; simplify_eq; read_world; intros r' req' Hl;
    lookup_cases; simplify_eq; try lia;
    pose proof (Hfresh _ _ Hl); lia.
Qed.

Lemma mounted_fresh (key : option jsstring) (hasSR secure : bool) :
  fresh (mounted key hasSR secure).
Proof.
  intros r req. destruct hasSR, secure; cbn; intros Hl;
    try (rewrite lookup_empty in Hl; discriminate).
  apply lookup_insert_Some in Hl as [[<- _]|[_ Hl]]; [lia|].
  rewrite lookup_empty in Hl. discriminate.
Qed.

Lemma step_speaking_cause (p : Platform) (ev : Event) (w : World) :
  fresh w -> speaking_cause w -> speaking_cause (step p ev w).
Proof.
  unfold fresh, speaking_cause. intros Hfresh Hinv.
  step_cases ev; simplify_eq; read_world; intros Hs; try discriminate;
    try (now apply Hinv);
    try (left; discriminate);
    try (right; eexists _, _, _; apply lookup_insert_eq).
  all: destruct (Hinv Hs) as [Hset|(r0 & c0 & m0 & Hr0)]; [now left|].
  all: right; exists r0, c0, m0.
  all: repeat first
      [ assumption
      | rewrite lookup_insert_ne by (pose proof (Hfresh _ _ Hr0); lia)
      | rewrite lookup_delete_ne by (intros ->; simplify_eq) ].
Qed.


(** While the TTS request of an answer is in flight the session is
    Speaking and there is no playback handle. *)
Lemma speaking_without_handle :
  isSpeaking (state answered) = true
  /\ currentAudioRef answered = None
  /\ (exists c, requests answered !! 2%nat = Some (RTts c 3001)).
Proof. vm_compute. eauto. Qed.

(** C1 (amended). In every world the component reaches, while the
    session is Speaking there is a playback handle or the TTS request of a
    [speakWithOpenAI] call is in flight.  No step clears the handle
    without leaving Speaking, and the natural end and the failure of a
    clip each clear the handle and leave Speaking.  A step that assigns
    the handle is the arrival of the TTS reply a [speakWithOpenAI] call
    waits for; and the step in which such a call starts waiting for that
    reply sets [isSpeaking] to true and leaves the handle alone, so the
    session is Speaking before the handle exists. *)
Theorem handle_and_speaking :
  (forall (key : option jsstring) (hasSR secure : bool) (evs : list (Platform * Event)),
      let w := run evs (mounted key hasSR secure) in
      isSpeaking (state w) = true ->
      currentAudioRef w <> None
      \/ exists r c messageId, requests w !! r = Some (RTts c messageId))
  /\ (forall (p : Platform) (ev : Event) (w : World),
      currentAudioRef w <> None -> currentAudioRef (step p ev w) = None ->
      isSpeaking (state (step p ev w)) = false)
  /\ (forall (p : Platform) (w : World) (audio : nat) (a : Audio),
      audios w !! audio = Some a ->
      currentAudioRef (step p (AudioEnded audio) w) = None
      /\ isSpeaking (state (step p (AudioEnded audio) w)) = false
      /\ currentAudioRef (step p (AudioErrored audio) w) = None
      /\ isSpeaking (state (step p (AudioErrored audio) w)) = false)
  /\ (forall (p : Platform) (ev : Event) (w : World),
      currentAudioRef (step p ev w) <> None ->
      currentAudioRef (step p ev w) <> currentAudioRef w ->
      exists r c messageId,
        ev = Settled r (TtsResponse true)
        /\ requests w !! r = Some (RTts c messageId))
  /\ (forall (p : Platform) (ev : Event) (w : World) r c messageId,
        requests (step p ev w) !! r = Some (RTts c messageId) ->
        requests w !! r <> Some (RTts c messageId) ->
        isSpeaking (state (step p ev w)) = true
        /\ currentAudioRef (step p ev w) = currentAudioRef w).
Proof.
  split; [|split; [|split; [|split]]].
  - intros key hasSR secure evs w.
    assert (Hinv : fresh w /\ speaking_cause w).
    { apply run_ind.
      - split; [apply mounted_fresh | destruct hasSR, secure; cbn; discriminate].
      - intros p ev w' [Hfresh Hcause]. split.
        + now apply step_fresh.
        + now apply step_speaking_cause. }
    exact (proj2 Hinv).
  - intros p ev w Hset Hclear. revert Hset Hclear.
    step_cases ev; simplify_eq; read_world; intros; congruence.
  - intros p w audio a Ha. cbn [step]. rewrite Ha.
    unfold audio_onended, audio_onerror.
    destruct (voiceEnabled (audioClosure a)); now read_world.
  - intros p ev w Hset Hnew. revert Hset Hnew.
    step_cases ev; simplify_eq; read_world; intros; try congruence; eauto.
  - intros p ev w r c messageId Hnow Hbefore. revert Hnow Hbefore.
    step_cases ev; simplify_eq; read_world; intros; try congruence; auto;
      repeat match goal with
        | H : <[_:=_]> _ !! _ = Some _ |- _ =>
            apply lookup_insert_Some in H; destruct H as [[? ?]|[? H]];
            try discriminate
        | H : delete _ _ !! _ = Some _ |- _ =>
            apply lookup_delete_Some in H; destruct H as [? H]
        end; congruence.
Qed.

Lemma handle_and_speaking_witness :
  isSpeaking (state (step (at_ 9000) (AudioEnded 0) playing)) = false.
Proof.
  refine (proj1 (proj2 handle_and_speaking) (at_ 9000) (AudioEnded 0) playing _ _).
  - vm_compute. discriminate.
  - vm_compute. reflexivity.
Defined.

(** ** Stop *)

(** C2 (failing runs). After the user stopped playback the handle still
    holds the paused clip; turning voice input on then calls
    [recognition.start()] while the handle is non-null.  And in a voice
    session the engine object stopped by [speakWithOpenAI] raises [end];
    its handler closes over [isSpeaking = false] and arms the restart,
    which calls [recognition.start()] while the clip is playing. *)
Theorem start_with_handle_after_stop :
  isSpeaking (state voice_on_after_stop) = false
  /\ currentAudioRef voice_on_after_stop = Some 0%nat
  /\ (let w := step (at_ 6200) (TimerFired 1) voice_on_after_stop in
      trace w = trace voice_on_after_stop ++ [RecStart 3]
      /\ currentAudioRef w = Some 0%nat)
  /\ isSpeaking (state self_listening) = true
  /\ currentAudioRef self_listening = Some 0%nat
  /\ (let w := step (at_ 4250) (TimerFired 3) self_listening in
      trace w = trace self_listening ++ [RecStart 2]
      /\ currentAudioRef w = Some 0%nat
      /\ isSpeaking (state w) = true).
Proof. vm_compute. auto 10. Qed.

(** C5 (failing run). [stopSpeaking] pauses and rewinds the clip but
    neither revokes its object URL nor clears the handle, whatever the
    world; natural completion and playback failure revoke the URL once.
    After the user stopped the clip of [playing], its URL was created and
    never revoked. *)
Theorem stop_does_not_release :
  (forall (c : State) (w : World) (url : nat),
      currentAudioRef (stopSpeaking c w) = currentAudioRef w
      /\ issued (is_revoke url) (stopSpeaking c w) = issued (is_revoke url) w
      /\ issued (is_revoke url) (audio_onended c url w) = S (issued (is_revoke url) w)
      /\ issued (is_revoke url) (audio_onerror c url w) = S (issued (is_revoke url) w))
  /\ In (CreateObjectURL 0) (trace stopped)
  /\ issued (is_revoke 0) stopped = 0%nat
  /\ currentAudioRef stopped = Some 0%nat
  /\ isSpeaking (state stopped) = false
  /\ pending stopped = [].
Proof.
  split; [|vm_compute; auto 10].
  intros c w url. repeat split.
  - handler_cases; congruence.
  - unfold issued. handler_cases;
      rewrite <- ?app_assoc, ?List.filter_app, ?length_app; cbn; lia.
  - unfold issued. handler_cases;
      rewrite ?List.filter_app, ?length_app; cbn; rewrite Nat.eqb_refl; cbn; lia.
  - unfold issued. handler_cases;
      rewrite ?List.filter_app, ?length_app; cbn; rewrite Nat.eqb_refl; cbn; lia.
Qed.

(** ** Terminal permission errors *)

(** C6 (failing run). The error handler does its part: on [not-allowed]
    and on [audio-capture] it disables voice, records the permission as
    denied or no-microphone, and arms nothing.  But the engine object that
    raised the error then raises [end], and its handler still closes over
    [voiceEnabled = true]: it arms the restart timer, whatever the world.  When the render was
    committed before [end] arrived nothing cancels that timer, and 1.2 s
    later [recognition.start()] is called again with voice disabled.  When
    [end] arrives first, the timer is armed all the same and the cleanup
    of the effect cancels it at the next render. *)
Theorem restart_after_permission_denied :
  (forall (c : State) (w : World),
      let w1 := recognition_onerror c "not-allowed" w in
      let w2 := recognition_onerror c "audio-capture" w in
      voiceEnabled (state w1) = false
      /\ permissionStatus (state w1) = "denied"%string
      /\ timers w1 = timers w /\ trace w1 = trace w
      /\ voiceEnabled (state w2) = false
      /\ permissionStatus (state w2) = "no-microphone"%string
      /\ timers w2 = timers w /\ trace w2 = trace w
      /\ (voiceEnabled c = true -> isSpeaking c = false ->
          timers (recognition_onend c w1) !! nextTimer w
          = Some (1000, TRestart c)))
  /\ voiceEnabled (state denied) = false
  /\ permissionStatus (state denied) = "denied"%string
  /\ pending denied = []
  /\ restart_timers (step (at_ 1310) (RecognitionEnded 1) denied) = [2%nat]
  /\ (let w := run [(at_ 1310, RecognitionEnded 1);
                    (at_ 2310, TimerFired 2);
                    (at_ 2510, TimerFired 3)] denied in
      trace w = trace denied ++ [RecStop 2; RecStart 2]
      /\ voiceEnabled (state w) = false
      /\ permissionStatus (state w) = "denied"%string)
  /\ restart_timers
       (run [(at_ 1300, RecognitionError 1 "not-allowed");
             (at_ 1300, RecognitionEnded 1)] (world_of (starting_events "prompt")))
     = [2%nat]
  /\ pending
       (run [(at_ 1300, RecognitionError 1 "not-allowed");
             (at_ 1300, RecognitionEnded 1);
             (at_ 1300, Render)] (world_of (starting_events "prompt")))
     = [].
Proof.
  split; [|vm_compute; auto 10].
  intros c w. cbn. repeat split.
  intros Hvoice Hquiet. unfold recognition_onend, restartRecognition.
  rewrite Hvoice, Hquiet. handler_cases; apply lookup_insert_eq.
Qed.

(** ** Restart timers *)

Lemma step_tracked (p : Platform) (ev : Event) (w : World) :
  tracked w -> tracked (step p ev w).
Proof.
  unfold tracked. intros Htracked.
  step_cases ev; simplify_eq; read_world; intros t' d' c' Hl;
    lookup_cases; simplify_eq;
    try (pose proof (Htracked _ _ _ Hl)); congruence.
Qed.

Lemma mounted_tracked (key : option jsstring) (hasSR secure : bool) :
  tracked (mounted key hasSR secure).
Proof.
  intros t d c. destruct hasSR, secure; cbn; rewrite lookup_empty; discriminate.
Qed.

Lemma restartRecognition_only (c : State) (w : World) :
  tracked w ->
  forall t d c',
    timers (restartRecognition c w) !! t = Some (d, TRestart c') ->
    t = nextTimer w /\ d = 1000 /\ c' = c
    /\ restartTimeoutRef (restartRecognition c w) = Some t.
Proof.
  intros Htracked t d c'. handler_cases; intros Hl; lookup_cases; simplify_eq;
    auto; pose proof (Htracked _ _ _ Hl); congruence.
Qed.

(** Two clips that end one after the other each arm a resumption timer;
    both are pending, both fire, and [recognition.start()] is called
    twice. *)
Lemma two_restart_timers_pending :
  restart_timers two_answers = [2%nat; 3%nat]
  /\ issued is_start two_answers = 1%nat
  /\ issued is_start
       (run [(at_ 5500, TimerFired 2); (at_ 5600, TimerFired 3);
             (at_ 5700, TimerFired 4); (at_ 5800, TimerFired 5)] two_answers)
     = 3%nat.
Proof. vm_compute. auto. Qed.

(** C4 (amended). In every world the component reaches, a pending
    callback of [restartRecognition] is the timer [restartTimeoutRef]
    holds, so at most one is pending; and [restartRecognition] cancels it
    before arming: afterwards the only such callback pending is the new
    one, with a delay of 1000 ms.  (The start-failure retry and the
    resumption after playback or Stop are bare [setTimeout] calls.) *)
Theorem one_tracked_restart (key : option jsstring) (hasSR secure : bool)
    (evs : list (Platform * Event)) :
  let w := run evs (mounted key hasSR secure) in
  (forall t d c, timers w !! t = Some (d, TRestart c) -> restartTimeoutRef w = Some t)
  /\ (forall t1 t2 d1 d2 c1 c2,
        timers w !! t1 = Some (d1, TRestart c1) ->
        timers w !! t2 = Some (d2, TRestart c2) ->
        t1 = t2)
  /\ (forall c t d c',
        timers (restartRecognition c w) !! t = Some (d, TRestart c') ->
        t = nextTimer w /\ d = 1000 /\ c' = c
        /\ restartTimeoutRef (restartRecognition c w) = Some t).
Proof.
  intros w.
  assert (Htracked : tracked w).
  { apply run_ind; [apply mounted_tracked | intros p ev w'; apply step_tracked]. }
  split; [exact Htracked | split].
  - intros t1 t2 d1 d2 c1 c2 H1 H2.
    pose proof (Htracked _ _ _ H1). pose proof (Htracked _ _ _ H2). congruence.
  - intros c. now apply restartRecognition_only.
Qed.

Lemma one_tracked_restart_witness :
  restartTimeoutRef
    (run (listening_events ++ [(at_ 9000, RecognitionEnded 1)]) (mounted key true true))
  = Some 2%nat.
Proof.
  refine (proj1 (one_tracked_restart key true true
                   (listening_events ++ [(at_ 9000, RecognitionEnded 1)]))
            2%nat 1000 (rendered (world_of (starting_events "granted"))) _).
  vm_compute. reflexivity.
Defined.

(** ** Starting recognition *)




(** ** Failed requests *)





(** ** formatResponse on plain and marked-up text *)

Lemma replace_bold_other (c : N) (rest : jsstring) :
  (c =? 42) = false -> replace_bold 0 (c :: rest) = c :: replace_bold 0 rest.
Proof. intros H. by_code_unit c. Qed.

Lemma replace_bullets_other (c : N) (rest : jsstring) :
  (c =? 45) = false -> replace_bullets 0 (c :: rest) = c :: replace_bullets 0 rest.
Proof. intros H. by_code_unit c. Qed.

Lemma replace_newlines_other (c : N) (rest : jsstring) :
  (c =? 13) = false -> (c =? 10) = false ->
  replace_newlines (c :: rest) = c :: replace_newlines rest.
Proof. intros H13 H10. by_code_unit c. Qed.

Lemma bold_close_other (c : N) (rest : jsstring) :
  (c =? 42) = false ->
  bold_close (c :: rest)
  = if is_line_terminator c then None
    else match bold_close rest with
         | Some inner => Some (c :: inner)
         | None => None
         end.
Proof. intros H. by_code_unit c. Qed.

Lemma replace_numbered_other (c : N) (rest : jsstring) :
  is_digit c = false ->
  replace_numbered 0 (c :: rest) = c :: replace_numbered 0 rest.
Proof.
  intros H. cbn [replace_numbered]. unfold numbered_match. cbn [digits].
  now rewrite H.
Qed.

Lemma plain_cons (c : N) (s : jsstring) :
  plain (c :: s) = true ->
  ((c =? 42) = false /\ (c =? 45) = false /\ is_digit c = false
   /\ (c =? 13) = false /\ (c =? 10) = false)
  /\ plain s = true.
Proof.
  unfold plain. cbn [forallb]. unfold is_markup.
  destruct (c =? 42), (c =? 45), (is_digit c), (c =? 13), (c =? 10);
    cbn; intros H; try discriminate; auto 10.
Qed.

Lemma plain_app (a b : jsstring) :
  plain (a ++ b) = plain a && plain b.
Proof. apply forallb_app. Qed.

(** Each pass copies a prefix in which its pattern cannot start. *)
Lemma replace_bold_prefix (a l : jsstring) :
  forallb (fun c => negb (c =? 42)) a = true ->
  replace_bold 0 (a ++ l) = a ++ replace_bold 0 l.
Proof.
  induction a as [|c a IH]; [reflexivity|]. cbn [forallb app].
  intros H. apply andb_prop in H as [Hc Ha].
  apply negb_true_iff in Hc. rewrite (replace_bold_other _ _ Hc).
  now rewrite IH.
Qed.

Lemma replace_bullets_prefix (a l : jsstring) :
  forallb (fun c => negb (c =? 45)) a = true ->
  replace_bullets 0 (a ++ l) = a ++ replace_bullets 0 l.
Proof.
  induction a as [|c a IH]; [reflexivity|]. cbn [forallb app].
  intros H. apply andb_prop in H as [Hc Ha].
  apply negb_true_iff in Hc. rewrite (replace_bullets_other _ _ Hc).
  now rewrite IH.
Qed.

Lemma replace_numbered_prefix (a l : jsstring) :
  forallb (fun c => negb (is_digit c)) a = true ->
  replace_numbered 0 (a ++ l) = a ++ replace_numbered 0 l.
Proof.
  induction a as [|c a IH]; [reflexivity|]. cbn [forallb app].
  intros H. apply andb_prop in H as [Hc Ha].
  apply negb_true_iff in Hc. rewrite (replace_numbered_other _ _ Hc).
  now rewrite IH.
Qed.

Lemma replace_newlines_prefix (a l : jsstring) :
  forallb (fun c => negb ((c =? 13) || (c =? 10))) a = true ->
  replace_newlines (a ++ l) = a ++ replace_newlines l.
Proof.
  induction a as [|c a IH]; [reflexivity|]. cbn [forallb app].
  intros H. apply andb_prop in H as [Hc Ha].
  apply negb_true_iff, orb_false_iff in Hc as [H13 H10].
  rewrite (replace_newlines_other _ _ H13 H10). now rewrite IH.
Qed.

(** A match is dropped from the input while its replacement is emitted. *)
Lemma replace_bold_skip (l b : jsstring) :
  replace_bold (length l) (l ++ b) = replace_bold 0 b.
Proof. induction l as [|c l IH]; [reflexivity | exact IH]. Qed.

Lemma replace_bullets_skip (l b : jsstring) :
  replace_bullets (length l) (l ++ b) = replace_bullets 0 b.
Proof. induction l as [|c l IH]; [reflexivity | exact IH]. Qed.

Lemma replace_numbered_skip (l b : jsstring) :
  replace_numbered (length l) (l ++ b) = replace_numbered 0 b.
Proof. induction l as [|c l IH]; [reflexivity | exact IH]. Qed.

(** What [plain] gives each pass. *)
Lemma plain_passes (s : jsstring) :
  plain s = true ->
  forallb (fun c => negb (c =? 42)) s = true
  /\ forallb (fun c => negb (c =? 45)) s = true
  /\ forallb (fun c => negb (is_digit c)) s = true
  /\ forallb (fun c => negb ((c =? 13) || (c =? 10))) s = true.
Proof.
  induction s as [|c s IH]; [now cbn|].
  intros H. apply plain_cons in H as [(H42 & H45 & Hd & H13 & H10) Hs].
  destruct (IH Hs) as (I1 & I2 & I3 & I4). cbn [forallb].
  now rewrite H42, H45, Hd, H13, H10, I1, I2, I3, I4.
Qed.

Lemma with_empty_suffix (s : jsstring) : s = s ++ [].
Proof. now rewrite app_nil_r. Qed.

(** X1. Text without an asterisk, a hyphen, a digit or a line break comes
    out of [formatResponse] as it went in. *)
Theorem formatResponse_plain (s : jsstring) :
  plain s = true -> formatResponse s = s.
Proof.
  intros H. destruct (plain_passes s H) as (H1 & H2 & H3 & H4).
  unfold formatResponse.
  rewrite (with_empty_suffix s) at 1.
  rewrite (replace_bold_prefix s [] H1). cbn [replace_bold].
  rewrite (replace_bullets_prefix s [] H2). cbn [replace_bullets].
  rewrite (replace_numbered_prefix s [] H3). cbn [replace_numbered].
  rewrite (replace_newlines_prefix s [] H4). cbn [replace_newlines].
  now rewrite app_nil_r.
Qed.

Lemma formatResponse_plain_witness :
  formatResponse (lit "Coconut milk, rice & lime.") = lit "Coconut milk, rice & lime.".
Proof. apply formatResponse_plain. vm_compute. reflexivity. Defined.

Lemma bold_close_found (s t : jsstring) :
  forallb (fun c => negb (c =? 42)) s = true ->
  one_line s = true ->
  bold_close (s ++ 42 :: 42 :: t) = Some s.
Proof.
  induction s as [|c s IH]; [reflexivity|]. unfold one_line. cbn [forallb app].
  intros H42 Hline. apply andb_prop in H42 as [Hc H42].
  apply andb_prop in Hline as [Hl Hline].
  apply negb_true_iff in Hc, Hl.
  rewrite (bold_close_other _ _ Hc), Hl, (IH H42 Hline). reflexivity.
Qed.

Lemma replace_bold_open (after : jsstring) :
  replace_bold 0 (42 :: 42 :: after)
  = match bold_close after with
    | Some inner =>
        lit "<strong>" ++ inner ++ lit "</strong>"
          ++ replace_bold (3 + length inner) (42 :: after)
    | None => 42 :: replace_bold 0 (42 :: after)
    end.
Proof. reflexivity. Qed.

(** X2. Inside plain text, a span between two pairs of asterisks that is
    itself plain and on one line becomes a [<strong>] element, and the
    text around it is unchanged. *)
Theorem formatResponse_bold (a s b : jsstring) :
  plain a = true -> plain s = true -> one_line s = true -> plain b = true ->
  formatResponse (a ++ lit "**" ++ s ++ lit "**" ++ b)
  = a ++ lit "<strong>" ++ s ++ lit "</strong>" ++ b.
Proof.
  intros Ha Hs Hline Hb.
  destruct (plain_passes a Ha) as (A1 & A2 & A3 & A4).
  destruct (plain_passes s Hs) as (S1 & S2 & S3 & S4).
  destruct (plain_passes b Hb) as (B1 & B2 & B3 & B4).
  assert (Hbold : replace_bold 0 (a ++ lit "**" ++ s ++ lit "**" ++ b)
                  = a ++ lit "<strong>" ++ s ++ lit "</strong>" ++ b).
  { rewrite (replace_bold_prefix a _ A1). f_equal.
    change (lit "**" ++ s ++ lit "**" ++ b) with (42 :: 42 :: (s ++ 42 :: 42 :: b)).
    rewrite replace_bold_open, (bold_close_found s b S1 Hline).
    do 3 f_equal.
    replace (42 :: s ++ 42 :: 42 :: b) with ((42 :: s ++ [42; 42]) ++ b)
      by (cbn [app]; now rewrite <- app_assoc).
    replace (3 + length s)%nat with (length (42 :: s ++ [42; 42]))
      by (cbn [length]; rewrite length_app; cbn; lia).
    rewrite replace_bold_skip, (with_empty_suffix b) at 1.
    rewrite (replace_bold_prefix b [] B1). cbn [replace_bold].
    now rewrite app_nil_r. }
  assert (Hrest : plain (a ++ lit "<strong>" ++ s ++ lit "</strong>" ++ b) = true).
  { rewrite !plain_app, Ha, Hs, Hb. reflexivity. }
  unfold formatResponse. rewrite Hbold.
  destruct (plain_passes _ Hrest) as (_ & R2 & R3 & R4).
  set (r := a ++ lit "<strong>" ++ s ++ lit "</strong>" ++ b) in *.
  rewrite (with_empty_suffix r) at 1.
  rewrite (replace_bullets_prefix r [] R2). cbn [replace_bullets].
  rewrite (replace_numbered_prefix r [] R3). cbn [replace_numbered].
  rewrite (replace_newlines_prefix r [] R4). cbn [replace_newlines].
  now rewrite app_nil_r.
Qed.

Lemma formatResponse_bold_witness :
  formatResponse (lit "Use " ++ lit "**" ++ lit "coconut milk" ++ lit "**" ++ lit " here.")
  = lit "Use " ++ lit "<strong>" ++ lit "coconut milk" ++ lit "</strong>" ++ lit " here.".
Proof. apply formatResponse_bold; vm_compute; reflexivity. Defined.

Lemma join_cons (sep part next : jsstring) (more : list jsstring) :
  join sep (part :: next :: more) = part ++ sep ++ join sep (next :: more).
Proof. reflexivity. Qed.

Lemma forallb_join (P : N -> bool) (sep : jsstring) (parts : list jsstring) :
  forallb P sep = true ->
  Forall (fun part => forallb P part = true) parts ->
  forallb P (join sep parts) = true.
Proof.
  intros Hsep. induction 1 as [|part more Hpart Hmore IH]; [reflexivity|].
  destruct more as [|next more]; [exact Hpart|].
  rewrite join_cons, !forallb_app, Hpart, Hsep, IH. reflexivity.
Qed.

Lemma line_rest_line (item rest : jsstring) :
  forallb (fun c => negb (c =? 10)) item = true ->
  line_rest item = item /\ line_rest (item ++ 10 :: rest) = item.
Proof.
  induction item as [|c item IH]; [now cbn|]. cbn [forallb app line_rest].
  intros H. apply andb_prop in H as [Hc Hitem]. apply negb_true_iff in Hc.
  rewrite Hc. destruct (IH Hitem) as [-> ->]. auto.
Qed.

Lemma replace_bullets_open (after : jsstring) :
  replace_bullets 0 (45 :: 32 :: after)
  = match line_rest after with
    | [] => 45 :: replace_bullets 0 (32 :: after)
    | item => 8226 :: 32 :: item ++ replace_bullets (1 + length item) (32 :: after)
    end.
Proof. reflexivity. Qed.

Lemma is_item_parts (s : jsstring) :
  is_item s = true -> plain s = true /\ s <> [].
Proof.
  unfold is_item. intros H. apply andb_prop in H as [Hp Hn]. split; [exact Hp|].
  intros ->. discriminate.
Qed.

Lemma plain_no_lf (s : jsstring) :
  plain s = true -> forallb (fun c => negb (c =? 10)) s = true.
Proof.
  induction s as [|c s IH]; [reflexivity|]. intros H.
  apply plain_cons in H as [(_ & _ & _ & _ & H10) Hs]. cbn [forallb].
  now rewrite H10, (IH Hs).
Qed.

(** One bullet line, at the end of the text or followed by a line feed. *)
Lemma replace_bullets_item (item rest : jsstring) :
  is_item item = true ->
  replace_bullets 0 (lit "- " ++ item) = 8226 :: 32 :: item
  /\ replace_bullets 0 (lit "- " ++ item ++ 10 :: rest)
     = 8226 :: 32 :: item ++ 10 :: replace_bullets 0 rest.
Proof.
  intros H. destruct (is_item_parts item H) as [Hp Hne].
  destruct (line_rest_line item rest (plain_no_lf item Hp)) as [Hend Hline].
  change (lit "- " ++ item) with (45 :: 32 :: item).
  change (lit "- " ++ item ++ 10 :: rest) with (45 :: 32 :: (item ++ 10 :: rest)).
  rewrite !replace_bullets_open, Hend, Hline.
  destruct item as [|c item]; [now elim Hne|]. cbv zeta.
  change (1 + length (c :: item))%nat with (length (32 :: c :: item)).
  split.
  - rewrite (with_empty_suffix (32 :: c :: item)) at 2.
    rewrite replace_bullets_skip. cbn [replace_bullets]. now rewrite app_nil_r.
  - change (32 :: (c :: item) ++ 10 :: rest) with ((32 :: c :: item) ++ 10 :: rest).
    rewrite replace_bullets_skip.
    now rewrite (replace_bullets_other 10 rest eq_refl).
Qed.

Lemma replace_bullets_list (items : list jsstring) :
  Forall (fun item => is_item item = true) items ->
  replace_bullets 0 (join [10] (map (app (lit "- ")) items))
  = join [10] (map (app [8226; 32]) items).
Proof.
  induction 1 as [|item more Hitem Hmore IH]; [reflexivity|].
  destruct more as [|next more].
  - exact (proj1 (replace_bullets_item item [] Hitem)).
  - cbn [map] in *. rewrite !join_cons.
    rewrite <- !(assoc_L (++)).
    change ([10] ++ ?r) with (10 :: r).
    now rewrite (proj2 (replace_bullets_item item _ Hitem)), IH.
Qed.

Lemma replace_newlines_lines (parts : list jsstring) :
  Forall (fun part => forallb (fun c => negb ((c =? 13) || (c =? 10))) part = true) parts ->
  replace_newlines (join [10] parts) = join (lit "<br />") parts.
Proof.
  induction 1 as [|part more Hpart Hmore IH].
  - reflexivity.
  - destruct more as [|next more].
    + cbn [join]. rewrite (with_empty_suffix part) at 1.
      rewrite (replace_newlines_prefix part [] Hpart). cbn [replace_newlines].
      now rewrite app_nil_r.
    + rewrite !join_cons, (replace_newlines_prefix part _ Hpart). f_equal.
      change ([10] ++ ?r) with (10 :: r).
      change (replace_newlines (10 :: ?r)) with (lit "<br />" ++ replace_newlines r).
      now rewrite IH.
Qed.

(** X3. A list of lines, each a hyphen, a space and a plain item, comes
    out as the items behind a bullet (U+2022), separated by [<br />]. *)
Theorem formatResponse_bullet_list (items : list jsstring) :
  Forall (fun item => is_item item = true) items ->
  formatResponse (join [10] (map (app (lit "- ")) items))
  = join (lit "<br />") (map (app [8226; 32]) items).
Proof.
  intros Hitems. unfold formatResponse.
  assert (Hplain : Forall (fun item => plain item = true) items).
  { eapply Forall_impl; [exact Hitems|]. intros item H. now apply is_item_parts. }
  assert (H42 : forallb (fun c => negb (c =? 42))
                  (join [10] (map (app (lit "- ")) items)) = true).
  { apply forallb_join; [reflexivity|]. apply Forall_map.
    eapply Forall_impl; [exact Hplain|]. intros item H. cbn beta.
    rewrite forallb_app. now rewrite (proj1 (plain_passes item H)). }
  rewrite (with_empty_suffix (join [10] (map (app (lit "- ")) items))) at 1.
  rewrite (replace_bold_prefix _ [] H42). cbn [replace_bold]. rewrite app_nil_r.
  rewrite (replace_bullets_list items Hitems).
  assert (Hd : forallb (fun c => negb (is_digit c))
                 (join [10] (map (app [8226; 32]) items)) = true).
  { apply forallb_join; [reflexivity|]. apply Forall_map.
    eapply Forall_impl; [exact Hplain|]. intros item H. cbn beta.
    rewrite forallb_app.
    now rewrite (proj1 (proj2 (proj2 (plain_passes item H)))). }
  rewrite (with_empty_suffix (join [10] (map (app [8226; 32]) items))) at 1.
  rewrite (replace_numbered_prefix _ [] Hd). cbn [replace_numbered].
  rewrite app_nil_r.
  apply replace_newlines_lines. apply Forall_map.
  eapply Forall_impl; [exact Hplain|]. intros item H. cbn beta.
  rewrite forallb_app.
  now rewrite (proj2 (proj2 (proj2 (plain_passes item H)))).
Qed.

Lemma formatResponse_bullet_list_witness :
  formatResponse (join [10] (map (app (lit "- ")) [lit "Coconut Curry"; lit "Coconut Rice"]))
  = join (lit "<br />") (map (app [8226; 32]) [lit "Coconut Curry"; lit "Coconut Rice"]).
Proof.
  apply formatResponse_bullet_list.
  repeat constructor.
Defined.

Lemma replace_newlines_cr (d : N) (rest : jsstring) :
  (d =? 10) = false ->
  replace_newlines (13 :: d :: rest) = lit "<br />" ++ replace_newlines (d :: rest).
Proof. intros H. by_code_unit d. Qed.

Lemma replace_newlines_no_break (n : nat) :
  forall s, (length s <= n)%nat ->
  forallb (fun c => negb ((c =? 13) || (c =? 10))) (replace_newlines s) = true.
Proof.
  induction n as [|n IH]; intros s Hlen.
  - destruct s; [reflexivity | cbn in Hlen; lia].
  - destruct s as [|c rest]; [reflexivity|]. cbn [length] in Hlen.
    destruct (c =? 13) eqn:H13; [|destruct (c =? 10) eqn:H10].
    + apply N.eqb_eq in H13. subst c.
      destruct rest as [|d rest]; [reflexivity|].
      destruct (d =? 10) eqn:Hd.
      * apply N.eqb_eq in Hd. subst d.
        change (replace_newlines (13 :: 10 :: rest))
          with (lit "<br />" ++ replace_newlines rest).
        rewrite forallb_app, IH; [reflexivity | cbn [length] in Hlen; lia].
      * rewrite (replace_newlines_cr d rest Hd), forallb_app, IH;
          [reflexivity | lia].
    + apply N.eqb_eq in H10. subst c.
      change (replace_newlines (10 :: rest))
        with (lit "<br />" ++ replace_newlines rest).
      rewrite forallb_app, IH; [reflexivity | lia].
    + rewrite (replace_newlines_other c rest H13 H10). cbn [forallb].
      rewrite H13, H10, IH; [reflexivity | lia].
Qed.

(** X4. Whatever the answer, the formatted text holds no carriage return
    and no line feed: every line break has become [<br />]. *)
Theorem formatResponse_no_line_break (s : jsstring) :
  forallb (fun c => negb ((c =? 13) || (c =? 10))) (formatResponse s) = true.
Proof. unfold formatResponse. now eapply replace_newlines_no_break. Qed.

Lemma replace_numbered_open (c : N) (rest : jsstring) :
  replace_numbered 0 (c :: rest)
  = match numbered_match (c :: rest) with
    | Some m =>
        lit "<br /><br /><strong>" ++ m ++ lit "</strong>"
          ++ replace_numbered (length m - 1) rest
    | None => c :: replace_numbered 0 rest
    end.
Proof. reflexivity. Qed.

Lemma digits_number (ds rest : jsstring) :
  forallb is_digit ds = true -> digits (ds ++ 46 :: rest) = ds.
Proof.
  induction ds as [|c ds IH]; [reflexivity|]. cbn [forallb app digits].
  intros H. apply andb_prop in H as [Hc Hds]. now rewrite Hc, (IH Hds).
Qed.

Lemma numbered_match_number (ds rest : jsstring) :
  is_number ds = true ->
  numbered_match (ds ++ 46 :: 32 :: rest) = Some (ds ++ [46; 32]).
Proof.
  unfold is_number. intros H. apply andb_prop in H as [Hds Hne].
  unfold numbered_match. rewrite (digits_number ds _ Hds).
  destruct ds as [|c ds]; [discriminate|].
  rewrite drop_app_length. reflexivity.
Qed.

Lemma digit_not_markup (c : N) :
  is_digit c = true ->
  (c =? 42) = false /\ (c =? 45) = false /\ (c =? 13) = false /\ (c =? 10) = false.
Proof.
  unfold is_digit. intros H. apply andb_prop in H as [Hlo Hhi].
  apply N.leb_le in Hlo. repeat split; apply N.eqb_neq; lia.
Qed.

Lemma number_passes (ds : jsstring) :
  forallb is_digit ds = true ->
  forallb (fun c => negb (c =? 42)) ds = true
  /\ forallb (fun c => negb (c =? 45)) ds = true
  /\ forallb (fun c => negb ((c =? 13) || (c =? 10))) ds = true.
Proof.
  induction ds as [|c ds IH]; [now cbn|]. cbn [forallb].
  intros H. apply andb_prop in H as [Hc Hds].
  destruct (digit_not_markup c Hc) as (H42 & H45 & H13 & H10).
  destruct (IH Hds) as (I1 & I2 & I3).
  now rewrite H42, H45, H13, H10, I1, I2, I3.
Qed.

(** X5. Inside plain text, a number followed by a full stop and a space is
    set in [<strong>] behind two [<br />], and the text around it is
    unchanged. *)
Theorem formatResponse_numbered (a ds b : jsstring) :
  plain a = true -> is_number ds = true -> plain b = true ->
  formatResponse (a ++ ds ++ lit ". " ++ b)
  = a ++ lit "<br /><br /><strong>" ++ ds ++ lit ". " ++ lit "</strong>" ++ b.
Proof.
  intros Ha Hnum Hb.
  destruct (plain_passes a Ha) as (A1 & A2 & A3 & A4).
  destruct (plain_passes b Hb) as (B1 & B2 & B3 & B4).
  assert (Hds : forallb is_digit ds = true)
    by (unfold is_number in Hnum; now apply andb_prop in Hnum as [? _]).
  destruct (number_passes ds Hds) as (D1 & D2 & D4).
  set (input := a ++ ds ++ lit ". " ++ b).
  assert (I1 : forallb (fun c => negb (c =? 42)) input = true).
  { unfold input. now rewrite !forallb_app, A1, D1, B1. }
  assert (I2 : forallb (fun c => negb (c =? 45)) input = true).
  { unfold input. now rewrite !forallb_app, A2, D2, B2. }
  unfold formatResponse.
  rewrite (with_empty_suffix input) at 1.
  rewrite (replace_bold_prefix input [] I1). cbn [replace_bold]. rewrite app_nil_r.
  rewrite (with_empty_suffix input) at 1.
  rewrite (replace_bullets_prefix input [] I2). cbn [replace_bullets].
  rewrite app_nil_r. unfold input.
  rewrite (replace_numbered_prefix a _ A3).
  assert (Hmatch : replace_numbered 0 (ds ++ lit ". " ++ b)
                   = lit "<br /><br /><strong>" ++ (ds ++ [46; 32]) ++ lit "</strong>" ++ b).
  { change (lit ". " ++ b) with (46 :: 32 :: b).
    pose proof (numbered_match_number ds b Hnum) as Hm.
    destruct ds as [|c ds]; [discriminate|].
    cbn [app] in *. rewrite replace_numbered_open, Hm.
    do 3 f_equal.
    replace (Nat.sub (length (c :: ds ++ [46; 32])) 1) with (length (ds ++ [46; 32]))
      by (cbn [length]; lia).
    replace (ds ++ 46 :: 32 :: b) with ((ds ++ [46; 32]) ++ b)
      by (now rewrite <- (assoc_L (++))).
    rewrite replace_numbered_skip, (with_empty_suffix b) at 1.
    rewrite (replace_numbered_prefix b [] B3). cbn [replace_numbered].
    now rewrite app_nil_r. }
  rewrite Hmatch.
  set (out := a ++ lit "<br /><br /><strong>" ++ (ds ++ [46; 32]) ++ lit "</strong>" ++ b).
  assert (O4 : forallb (fun c => negb ((c =? 13) || (c =? 10))) out = true).
  { unfold out. now rewrite !forallb_app, A4, D4, B4. }
  rewrite (with_empty_suffix out) at 1.
  rewrite (replace_newlines_prefix out [] O4). cbn [replace_newlines].
  rewrite app_nil_r. unfold out.
  now rewrite <- !(assoc_L (++)).
Qed.

Lemma formatResponse_numbered_witness :
  formatResponse (lit "Step " ++ lit "12" ++ lit ". " ++ lit "stir")
  = lit "Step " ++ lit "<br /><br /><strong>" ++ lit "12" ++ lit ". "
      ++ lit "</strong>" ++ lit "stir".
Proof. apply formatResponse_numbered; vm_compute; reflexivity. Defined.

(** ** The conversation *)

Lemma truthy_trim (s : jsstring) : negb (truthy (trim s)) = false -> trim s <> [].
Proof. intros H E. rewrite E in H. discriminate. Qed.

Lemma step_messages (p : Platform) (ev : Event) (w : World) :
  exists more, messages (state (step p ev w)) = messages (state w) ++ more.
Proof.
  step_cases ev; simplify_eq; read_world;
    first [ now exists []; rewrite app_nil_r | eexists; reflexivity ].
Qed.

(** X6. The conversation only grows: whatever happens, from any world,
    the messages shown before are still there, in the same order, at the
    head of the log. *)
Theorem conversation_grows (evs : list (Platform * Event)) (w : World) :
  exists more, messages (state (run evs w)) = messages (state w) ++ more.
Proof.
  apply run_ind.
  - exists []. now rewrite app_nil_r.
  - intros p ev w' [more Hmore]. destruct (step_messages p ev w') as [more' Hstep].
    exists (more ++ more'). now rewrite Hstep, Hmore, <- (assoc_L (++)).
Qed.

(** X7. One event adds at most one message.  A user message is added only
    by Enter or by a debounce callback firing; its text is not blank, it
    carries [Date.now()] as id, and the same text is posted to the backend
    in the same step.  A bot message is added only when a backend request
    settles; its text is the formatted reply or the connection error. *)
Theorem message_origin (p : Platform) (ev : Event) (w : World) :
  messages (state (step p ev w)) = messages (state w)
  \/ (exists input,
        messages (state (step p ev w))
        = messages (state w) ++ [{| sender := user; text := input; id := now p |}]
        /\ trim input <> []
        /\ trace (step p ev w) = trace w ++ [FetchChat input]
        /\ (ev = EnterPressed
            \/ exists t d c transcript,
                 ev = TimerFired t
                 /\ timers w !! t = Some (d, TDebounce c transcript)))
  \/ (exists r o c input m,
        ev = Settled r o /\ requests w !! r = Some (RChat c input)
        /\ messages (state (step p ev w)) = messages (state w) ++ [m]
        /\ sender m = bot
        /\ (text m = connectError
            \/ exists response,
                 o = ChatResponse true (Some response)
                 /\ text m = formatResponse response)).
Proof.
  step_cases ev; simplify_eq; read_world;
    first
      [ left; reflexivity
      | right; left; eexists; split; [reflexivity|];
        split; [now apply truthy_trim|]; split; [reflexivity|]; eauto 10
      | right; right; do 5 eexists; split; [reflexivity|]; split; [eassumption|];
        split; [reflexivity|]; split; [reflexivity|]; cbn; eauto ].
Qed.

Lemma step_posted (p : Platform) (ev : Event) (w : World) :
  posted w -> posted (step p ev w).
Proof.
  unfold posted, questions_shown, questions_sent. intros [Hsame Hnonblank].
  step_cases ev; simplify_eq; read_world;
    rewrite ?List.filter_app, ?map_app, ?omap_app; cbn;
    rewrite ?app_nil_r; (split; [congruence|]);
    try assumption;
    (apply Forall_app; split; [assumption|]);
    repeat constructor; now apply truthy_trim.
Qed.

(** X17. After any run from the mount, the user's messages in the
    conversation are exactly the queries posted to the backend, in the
    same order and with the same text, and none of them is blank. *)
Theorem questions_posted (key : option jsstring) (hasSR secure : bool)
    (evs : list (Platform * Event)) :
  let w := run evs (mounted key hasSR secure) in
  questions_shown w = questions_sent w
  /\ Forall (fun q => trim q <> []) (questions_sent w).
Proof.
  intros w. apply (run_ind posted).
  - destruct hasSR, secure; split; cbn; constructor.
  - intros p ev w'. apply step_posted.
Qed.

Lemma fresh_next (w : World) : fresh w -> requests w !! nextRequest w = None.
Proof.
  intros Hfresh. destruct (requests w !! nextRequest w) eqn:Hl; [|reflexivity].
  pose proof (Hfresh _ _ Hl). lia.
Qed.

Lemma chat_count_insert (m : gmap nat Request) (i : nat) (req : Request) :
  m !! i = None ->
  chat_count (<[i:=req]> m) = if is_chat req then S (chat_count m) else chat_count m.
Proof.
  intros Hnone. unfold chat_count. rewrite map_filter_insert. cbn [snd].
  destruct (is_chat req).
  - rewrite decide_True by reflexivity. apply map_size_insert_None.
    apply map_lookup_filter_None_2. now left.
  - rewrite decide_False by discriminate. now rewrite delete_id.
Qed.

Lemma chat_count_delete (m : gmap nat Request) (i : nat) (req : Request) :
  m !! i = Some req ->
  chat_count m = if is_chat req then S (chat_count (delete i m)) else chat_count (delete i m).
Proof.
  intros Hsome. rewrite <- (insert_delete_id m i req Hsome) at 1.
  apply chat_count_insert, lookup_delete_eq.
Qed.

Lemma step_answered_or_pending (p : Platform) (ev : Event) (w : World) :
  fresh w -> answered_or_pending w -> answered_or_pending (step p ev w).
Proof.
  unfold answered_or_pending, shown. intros Hfresh Hinv.
  pose proof (fresh_next w Hfresh) as Hnext.
  step_cases ev; simplify_eq; read_world;
    try match goal with
      | H : requests w !! ?r = Some _ |- context [delete ?r (requests w)] =>
          rewrite (chat_count_delete _ _ _ H) in Hinv; cbn [is_chat] in Hinv
      end;
    repeat match goal with
      | |- context [chat_count (<[nextRequest w := ?req]> ?m)] =>
          rewrite (chat_count_insert m (nextRequest w) req)
            by first [assumption | apply lookup_delete_None; now right]
      end;
    cbn [is_chat]; rewrite ?List.filter_app, ?length_app; cbn; lia.
Qed.

(** X18. After any run from the mount, the bot messages shown and the
    backend requests still pending together number as many as the user's
    messages: every question sent is answered by exactly one message, the
    reply or the connection error, when its request settles. *)
Theorem every_question_answered (key : option jsstring) (hasSR secure : bool)
    (evs : list (Platform * Event)) :
  let w := run evs (mounted key hasSR secure) in
  (shown from_bot w + chat_count (requests w))%nat = shown from_user w.
Proof.
  intros w.
  assert (Hinv : fresh w /\ answered_or_pending w).
  { apply run_ind.
    - split; [apply mounted_fresh | now destruct hasSR, secure; vm_compute].
    - intros p ev w' [Hfresh Hcount]. split.
      + now apply step_fresh.
      + now apply step_answered_or_pending. }
  exact (proj2 Hinv).
Qed.

Lemma step_waiting (p : Platform) (ev : Event) (w : World) :
  fresh w -> waiting w -> waiting (step p ev w).
Proof.
  unfold fresh, waiting. intros Hfresh Hinv.
  step_cases ev; simplify_eq; read_world; intros Hl; try discriminate;
    try (now apply Hinv);
    try (eexists _, _; split; [apply lookup_insert_eq | reflexivity]);
    destruct (Hinv Hl) as (r0 & req0 & Hr0 & Hf0); exists r0, req0;
    (split; [|assumption]);
    repeat first
      [ assumption
      | rewrite lookup_insert_ne by (pose proof (Hfresh _ _ Hr0); lia)
      | rewrite lookup_delete_ne by (intros ->; simplify_eq; discriminate) ].
Qed.

(** X13. After any run from the mount, while the loading indicator is on,
    a promise that a call of [sendMessage] waits for is pending: the
    backend request, the TTS request or the start of playback. *)
Theorem loading_has_cause (key : option jsstring) (hasSR secure : bool)
    (evs : list (Platform * Event)) :
  let w := run evs (mounted key hasSR secure) in
  loading (state w) = true ->
  exists r req, requests w !! r = Some req /\ in_flight req = true.
Proof.
  intros w.
  assert (Hinv : fresh w /\ waiting w).
  { apply run_ind.
    - split; [apply mounted_fresh | destruct hasSR, secure; cbn; discriminate].
    - intros p ev w' [Hfresh Hwaiting]. split.
      + now apply step_fresh.
      + now apply step_waiting. }
  exact (proj2 Hinv).
Qed.

Lemma loading_has_cause_witness :
  exists r req,
    requests (run asked_events (mounted key true true)) !! r = Some req
    /\ in_flight req = true.
Proof.
  refine (loading_has_cause key true true asked_events _).
  vm_compute. reflexivity.
Defined.

Lemma commit_state (w : World) :
  state (commit w) = state w /\ rendered (commit w) = state w
  /\ requests (commit w) = requests w /\ nextRequest (commit w) = nextRequest w.
Proof. handler_cases; auto. Qed.

(** X24. With the text box enabled, typing [q] stores it; once rendered,
    Enter does nothing if [q] is blank, and otherwise appends the user's
    message with the text as typed (not trimmed), posts that text to the
    backend, empties the box and turns the loading indicator on. *)
Theorem typed_then_sent (p1 p2 p : Platform) (q : jsstring) (w : World) :
  input_disabled (rendered w) = false ->
  input_disabled (state w) = false ->
  let w1 := run [(p1, Typed q); (p2, Render)] w in
  let w2 := step p EnterPressed w1 in
  query (state w1) = q
  /\ (trim q = [] -> w2 = w1)
  /\ (trim q <> [] ->
      messages (state w2)
      = messages (state w) ++ [{| sender := user; text := q; id := now p |}]
      /\ trace w2 = trace w1 ++ [FetchChat q]
      /\ requests w2 = <[nextRequest w := RChat (rendered w1) q]> (requests w)
      /\ query (state w2) = []
      /\ loading (state w2) = true).
Proof.
  intros Hrendered Hstate. cbn [run fold_left fst snd step]. rewrite Hrendered.
  destruct (commit_state (setQuery q w)) as (Hst & Hren & Hreq & Hnext).
  assert (Henabled : input_disabled (rendered (commit (setQuery q w))) = false).
  { rewrite Hren. exact Hstate. }
  rewrite Henabled. unfold sendMessage. rewrite Hren.
  split; [now rewrite Hst|]. split.
  - intros Hblank. cbn [query state setQuery with_state with_query].
    now rewrite Hblank.
  - intros Hfilled. cbn [query state setQuery with_state with_query].
    destruct (trim q) eqn:Htrim; [now elim Hfilled|]. cbn [truthy negb].
    read_world. rewrite Hst, Hreq, Hnext. now read_world.
Qed.

Lemma typed_then_sent_witness :
  query (state (run [(at_ 1000, Typed coconut); (at_ 1000, Render)]
                  (world_of (ready_events "granted"))))
  = coconut.
Proof.
  refine (proj1 (typed_then_sent (at_ 1000) (at_ 1000) (at_ 2000) coconut
                   (world_of (ready_events "granted")) _ _));
    vm_compute; reflexivity.
Defined.

(** ** Voice input *)

Lemma accepted_not_blank (t : jsstring) :
  truthy t && (0 <? N.of_nat (length (trim t))) = true -> trim t <> [].
Proof.
  intros H E. rewrite E in H. cbn in H. now rewrite andb_false_r in H.
Qed.

Lemma step_debounced (p : Platform) (ev : Event) (w : World) :
  debounced w -> debounced (step p ev w).
Proof.
  unfold debounced. intros Hinv.
  step_cases ev; simplify_eq; read_world; intros t' d' c' tr' Hl;
    lookup_cases; simplify_eq;
    first [ now apply (Hinv _ _ _ _ Hl)
          | repeat split; first [assumption | reflexivity | now apply accepted_not_blank] ].
Qed.

Lemma mounted_debounced (key : option jsstring) (hasSR secure : bool) :
  debounced (mounted key hasSR secure).
Proof.
  intros t d c tr. destruct hasSR, secure; cbn; rewrite lookup_empty; discriminate.
Qed.

(** X8. After any run from the mount, every pending debounce callback
    was armed for 500 ms, for a transcript that is not blank, by a handler
    that read [isSpeaking] as false; so when it fires, whatever the state
    then, the trimmed transcript is appended as the user's message and
    posted to the backend, and voice processing ends. *)
Theorem debounce_sends (key : option jsstring) (hasSR secure : bool)
    (evs : list (Platform * Event)) (p : Platform) :
  let w := run evs (mounted key hasSR secure) in
  forall t d c transcript,
    timers w !! t = Some (d, TDebounce c transcript) ->
    d = 500 /\ isSpeaking c = false /\ trim transcript <> []
    /\ messages (state (step p (TimerFired t) w))
       = messages (state w)
           ++ [{| sender := user; text := trim transcript; id := now p |}]
    /\ trace (step p (TimerFired t) w) = trace w ++ [FetchChat (trim transcript)]
    /\ isProcessingVoice (state (step p (TimerFired t) w)) = false.
Proof.
  intros w t d c tr Hl.
  assert (Hinv : debounced w).
  { apply run_ind; [apply mounted_debounced | intros p' ev w'; apply step_debounced]. }
  destruct (Hinv _ _ _ _ Hl) as (Hd & Hc & Htr).
  repeat (split; [assumption|]).
  cbn [step]. rewrite Hl. cbn [run_task]. unfold recognition_onresult_fired.
  rewrite (sendMessage_override _ _ _ _ Htr). now read_world.
Qed.

Lemma debounce_sends_witness :
  trace (step (at_ 5500) (TimerFired 2) (run heard_events (mounted key true true)))
  = trace (run heard_events (mounted key true true)) ++ [FetchChat (trim coconut)].
Proof.
  refine (proj1 (proj2 (proj2 (proj2 (proj2
    (debounce_sends key true true heard_events (at_ 5500) 2%nat 500
       (rendered (world_of (starting_events "granted"))) coconut _)))))).
  vm_compute. reflexivity.
Defined.

Lemma step_timers_fresh (p : Platform) (ev : Event) (w : World) :
  timers_fresh w -> timers_fresh (step p ev w).
Proof.
  unfold timers_fresh. intros [Hfresh Href].
  step_cases ev; simplify_eq; read_world; (split; [intros t' e' Hl | intros t' Ht']);
    simplify_eq; lookup_cases; simplify_eq; try lia;
    try (pose proof (Hfresh _ _ Hl); lia).
  all: try (destruct (Href _ Ht') as [Hlt Hkind]; split; [lia|]; intros d' task' Hl;
            lookup_cases; simplify_eq; try lia; eauto).
  all: try (split; [lia|]; intros d' task' Hl; lookup_cases; simplify_eq; eauto; lia).
  all: first [ destruct (Href _ eq_refl) as [Hlt Hkind]
             | match goal with
               | H : restartTimeoutRef _ = Some _ |- _ =>
                   destruct (Href _ H) as [Hlt Hkind]
               end ];
    (split; [lia|]); intros d' task' Hl; lookup_cases; simplify_eq;
    try congruence; try lia; eauto.
Qed.

Lemma step_processing (p : Platform) (ev : Event) (w : World) :
  timers_fresh w -> processing w -> processing (step p ev w).
Proof.
  unfold timers_fresh, processing. intros [Hfresh Href] Hinv.
  step_cases ev; simplify_eq; read_world; intros Hl; try discriminate;
    try (now apply Hinv);
    try (eexists _, _, _, _; apply lookup_insert_eq).
  all: destruct (Hinv Hl) as (t0 & d0 & c0 & tr0 & Ht0); exists t0, d0, c0, tr0.
  all: repeat first
      [ assumption
      | rewrite lookup_insert_ne by (pose proof (Hfresh _ _ Ht0); lia)
      | rewrite lookup_delete_ne
          by (intros ->; try congruence;
              first [ destruct (Href _ eq_refl) as [_ Hkind]
                    | match goal with
                      | H : restartTimeoutRef _ = Some _ |- _ =>
                          destruct (Href _ H) as [_ Hkind]
                      end ];
              destruct (Hkind _ _ Ht0); discriminate) ].
Qed.

(** X20. After any run from the mount, while voice input is marked as
    being processed (and the text box is therefore disabled), a debounce
    callback is pending: no cancellation of a restart timer ever removes
    it. *)
Theorem processing_has_cause (key : option jsstring) (hasSR secure : bool)
    (evs : list (Platform * Event)) :
  let w := run evs (mounted key hasSR secure) in
  isProcessingVoice (state w) = true ->
  exists t d c transcript, timers w !! t = Some (d, TDebounce c transcript).
Proof.
  intros w.
  assert (Hinv : timers_fresh w /\ processing w).
  { apply run_ind.
    - split; [split|].
      + intros t entry. destruct hasSR, secure; cbn; rewrite lookup_empty; discriminate.
      + intros t. destruct hasSR, secure; cbn; discriminate.
      + destruct hasSR, secure; cbn; discriminate.
    - intros p ev w' [Hfresh Hprocessing]. split.
      + now apply step_timers_fresh.
      + now apply step_processing. }
  exact (proj2 Hinv).
Qed.

Lemma processing_has_cause_witness :
  exists t d c transcript,
    timers (run heard_events (mounted key true true)) !! t
    = Some (d, TDebounce c transcript).
Proof.
  refine (processing_has_cause key true true heard_events _).
  vm_compute. reflexivity.
Defined.

Lemma step_inert (p : Platform) (ev : Event) (w : World) :
  inert w -> inert (step p ev w).
Proof.
  unfold inert.
  intros (Hsup & Hren & Hvoice & Hlis & Hproc & Href & Hrecs & Hreq & Htrace).
  step_cases ev; simplify_eq; read_world;
    try (rewrite Hsup in *; discriminate);
    try (rewrite Hren in *; discriminate);
    try match goal with
      | H : recognitions w !! _ = Some _ |- _ =>
          rewrite Hrecs, lookup_nil in H; discriminate
      end;
    try (exfalso; eapply Hreq; eassumption);
    repeat split; try assumption; try reflexivity;
    try (intros r' c' Hl; lookup_cases; simplify_eq; eapply Hreq; eassumption);
    try (rewrite ?forallb_app, Htrace; reflexivity).
Qed.

(** X9. In a browser without speech recognition, whatever happens after
    the mount, speech stays unsupported, voice input stays off, the
    component never listens or processes voice, no engine object is ever
    created, and no call is made to an engine, to the microphone or to the
    permission API. *)
Theorem unsupported_browser_inert (key : option jsstring) (secure : bool)
    (evs : list (Platform * Event)) :
  let w := run evs (mounted key false secure) in
  speechSupported (state w) = false
  /\ voiceEnabled (state w) = false
  /\ isListening (state w) = false
  /\ isProcessingVoice (state w) = false
  /\ recognitionRef w = None
  /\ recognitions w = []
  /\ forallb (fun cmd => negb (is_speech_command cmd)) (trace w) = true.
Proof.
  intros w.
  assert (Hinv : inert w).
  { apply run_ind; [|intros p ev w'; apply step_inert].
    repeat split. intros r c. cbn. rewrite lookup_empty. discriminate. }
  destruct Hinv as (? & ? & ? & ? & ? & ? & ? & ? & ?). auto 10.
Qed.

Lemma step_no_prompt (p : Platform) (ev : Event) (w : World) :
  ev <> VoiceClicked -> issued is_prompt (step p ev w) = issued is_prompt w.
Proof.
  intros Hev. destruct ev; try (now elim Hev); clear Hev;
    cbn [step]; handler_cases; simplify_eq; count_issued.
Qed.

Lemma voice_enabled_button (c : State) :
  voice_disabled c = false ->
  speechSupported c = true
  /\ String.eqb (permissionStatus c) "denied" = false
  /\ String.eqb (permissionStatus c) "no-microphone" = false.
Proof.
  unfold voice_disabled. destruct (speechSupported c); cbn; [|discriminate].
  destruct (String.eqb _ "denied"); cbn; [discriminate|]. auto.
Qed.

(** X10. One event makes at most one call of [getUserMedia], and it makes
    one exactly when it is a click on the voice button of a render with
    speech supported, voice input off and the permission status
    "unknown".  With the status "denied" the button is disabled, so the
    browser is not asked again. *)
Theorem microphone_prompt (p : Platform) (ev : Event) (w : World) :
  (issued is_prompt (step p ev w) = issued is_prompt w
   \/ issued is_prompt (step p ev w) = S (issued is_prompt w))
  /\ (issued is_prompt (step p ev w) = S (issued is_prompt w)
      <-> ev = VoiceClicked
          /\ speechSupported (rendered w) = true
          /\ voiceEnabled (rendered w) = false
          /\ permissionStatus (rendered w) = "unknown"%string).
Proof.
  assert (Hcase : ev = VoiceClicked \/ ev <> VoiceClicked)
    by (destruct ev; first [left; reflexivity | right; discriminate]).
  destruct Hcase as [->|Hev].
  - cbn [step]. destruct (voice_disabled (rendered w)) eqn:Hdis.
    + split; [now left|]. split; [lia|].
      intros (_ & Hsup & _ & Hstatus). unfold voice_disabled in Hdis.
      rewrite Hsup, Hstatus in Hdis. discriminate.
    + destruct (voice_enabled_button _ Hdis) as (Hsup & Hdenied & _).
      unfold toggleVoiceInput. rewrite Hsup, Hdenied. cbn [negb orb].
      destruct (voiceEnabled (rendered w)) eqn:Hvoice; cbn [negb].
      * assert (Hsame : issued is_prompt (stopRecognition (setVoiceEnabled false w))
                        = issued is_prompt w).
        { handler_cases; simplify_eq; count_issued. }
        rewrite Hsame. split; [now left|]. split; [lia|]. intros (_ & _ & ? & _).
        discriminate.
      * destruct (String.eqb (permissionStatus (rendered w)) "unknown") eqn:Hunknown.
        -- apply String.eqb_eq in Hunknown.
           assert (Hmore : issued is_prompt
                             (await (RGetUserMedia (rendered w)) (emit GetUserMedia w))
                           = S (issued is_prompt w)).
           { count_issued. }
           rewrite Hmore. split; [now right|].
           split; [intros _; repeat split; assumption | reflexivity].
        -- assert (Hsame : issued is_prompt (toggleVoiceInput_enable (rendered w) p w)
                           = issued is_prompt w).
           { handler_cases; simplify_eq; count_issued. }
           rewrite Hsame. split; [now left|]. split; [lia|].
           intros (_ & _ & _ & Hstatus). rewrite Hstatus in Hunknown. discriminate.
  - rewrite (step_no_prompt p ev w Hev). split; [now left|]. split; [lia|].
    intros [? _]. contradiction.
Qed.

Lemma microphone_prompt_witness :
  issued is_prompt (step (at_ 1000) VoiceClicked (world_of unknown_events))
  = S (issued is_prompt (world_of unknown_events)).
Proof.
  refine (proj2 (proj2 (microphone_prompt (at_ 1000) VoiceClicked
                          (world_of unknown_events))) _).
  vm_compute. auto.
Defined.

Lemma not_unknown (st : string) :
  String.eqb st "denied" || String.eqb st "unknown" = false -> st <> "unknown"%string.
Proof. intros H ->. discriminate. Qed.

(** X11. Voice input is switched on only by a click on the voice button
    of a render that shows it off, or by the microphone being granted
    after such a click; it is switched off only by a click on the button
    of a render that shows it on, or by the engine reporting "not-allowed"
    or "audio-capture". *)
Theorem voice_switch (p : Platform) (ev : Event) (w : World) :
  (voiceEnabled (state w) = false ->
   voiceEnabled (state (step p ev w)) = true ->
   (ev = VoiceClicked /\ voiceEnabled (rendered w) = false
    /\ permissionStatus (rendered w) <> "unknown"%string)
   \/ (exists r c,
         ev = Settled r MediaGranted
         /\ requests w !! r = Some (RGetUserMedia c)))
  /\ (voiceEnabled (state w) = true ->
      voiceEnabled (state (step p ev w)) = false ->
      (ev = VoiceClicked /\ voiceEnabled (rendered w) = true)
      \/ (exists rec c e,
            ev = RecognitionError rec e
            /\ recognitions w !! rec = Some c
            /\ (e = "not-allowed" \/ e = "audio-capture")%string)).
Proof.
  split; intros Hbefore; step_cases ev; simplify_eq; read_world;
    intros Hafter; try congruence.
  all: try (left; split; [reflexivity|]; split;
            [now apply negb_true_iff | now apply not_unknown]).
  all: try (right; do 2 eexists; split; [reflexivity | eassumption]).
  all: try (left; split; [reflexivity | now apply negb_false_iff]).
  all: try (right; do 3 eexists; split; [reflexivity|]; split; [eassumption|];
            first [ left; now apply String.eqb_eq | right; now apply String.eqb_eq ]).
Qed.

Lemma voice_switch_witness :
  (VoiceClicked = VoiceClicked
   /\ voiceEnabled (rendered (world_of (ready_events "granted"))) = false
   /\ permissionStatus (rendered (world_of (ready_events "granted"))) <> "unknown"%string)
  \/ (exists r c,
        VoiceClicked = Settled r MediaGranted
        /\ requests (world_of (ready_events "granted")) !! r = Some (RGetUserMedia c)).
Proof.
  refine (proj1 (voice_switch (at_ 1000) VoiceClicked
                   (world_of (ready_events "granted"))) _ _);
    vm_compute; reflexivity.
Defined.

(** X19. The component turns to listening only when an engine object it
    created reports that it started; that event also sets the permission
    status to "listening" and clears the starting flag, and makes no call
    and arms no timer. *)
Theorem listening_origin (p : Platform) (ev : Event) (w : World) :
  isListening (state w) = false ->
  isListening (state (step p ev w)) = true ->
  exists rec c,
    ev = RecognitionStarted rec
    /\ recognitions w !! rec = Some c
    /\ permissionStatus (state (step p ev w)) = "listening"%string
    /\ isStartingRef (step p ev w) = false
    /\ trace (step p ev w) = trace w
    /\ timers (step p ev w) = timers w.
Proof.
  intros Hbefore; step_cases ev; simplify_eq; read_world;
    intros Hafter; try congruence.
  eauto 10.
Qed.

Lemma listening_origin_witness :
  exists rec c,
    RecognitionStarted 1 = RecognitionStarted rec
    /\ recognitions (world_of (starting_events "granted")) !! rec = Some c
    /\ permissionStatus
         (state (step (at_ 1300) (RecognitionStarted 1)
                   (world_of (starting_events "granted"))))
       = "listening"%string
    /\ isStartingRef
         (step (at_ 1300) (RecognitionStarted 1) (world_of (starting_events "granted")))
       = false
    /\ trace (step (at_ 1300) (RecognitionStarted 1) (world_of (starting_events "granted")))
       = trace (world_of (starting_events "granted"))
    /\ timers (step (at_ 1300) (RecognitionStarted 1) (world_of (starting_events "granted")))
       = timers (world_of (starting_events "granted")).
Proof.
  refine (listening_origin (at_ 1300) (RecognitionStarted 1)
            (world_of (starting_events "granted")) _ _);
    vm_compute; reflexivity.
Defined.

(** X22. An engine error other than "not-allowed" and "audio-capture"
    (no speech, network, aborted, ...) is handled exactly as the end of a
    session: voice input and the permission status are left as they are,
    no call is made, and a restart is armed under the same condition. *)
Theorem recoverable_error (c : State) (e : string) (w : World) :
  e <> "not-allowed"%string -> e <> "audio-capture"%string ->
  recognition_onerror c e w = recognition_onend c w
  /\ voiceEnabled (state (recognition_onerror c e w)) = voiceEnabled (state w)
  /\ permissionStatus (state (recognition_onerror c e w)) = permissionStatus (state w)
  /\ trace (recognition_onerror c e w) = trace w.
Proof.
  intros Hallowed Hcapture.
  apply String.eqb_neq in Hallowed, Hcapture.
  unfold recognition_onerror, recognition_onend. rewrite Hallowed, Hcapture.
  split; [now destruct (String.eqb e "no-speech")|].
  destruct (String.eqb e "no-speech"); handler_cases; auto.
Qed.

Lemma recoverable_error_witness :
  recognition_onerror (rendered listening) "network" listening
  = recognition_onend (rendered listening) listening.
Proof.
  refine (proj1 (recoverable_error (rendered listening) "network" listening _ _));
    discriminate.
Defined.

(** ** Starting and stopping the engine *)

Lemma step_settling (p : Platform) (ev : Event) (w : World) :
  settling w -> settling (step p ev w).
Proof.
  unfold settling. intros Hinv.
  step_cases ev; simplify_eq; read_world; intros t' d' c' Hl;
    lookup_cases; simplify_eq;
    first [ now apply (Hinv _ _ _ Hl) | now split ].
Qed.

Lemma step_start (p : Platform) (ev : Event) (w : World) :
  (issued is_start (step p ev w) = issued is_start w
   \/ issued is_start (step p ev w) = S (issued is_start w))
  /\ (issued is_start (step p ev w) = S (issued is_start w)
      <-> exists t d c rec,
            ev = TimerFired t
            /\ timers w !! t = Some (d, TSettle c)
            /\ recognitionRef w = Some rec).
Proof.
  step_cases ev; simplify_eq; read_world;
    unfold issued; read_world; rewrite ?List.filter_app, ?length_app; cbn;
    (split; [lia|]);
    (split;
     [ intros Hs; first [exfalso; lia | eauto 10]
     | intros (t' & d' & c' & rec' & Hev & Ht & Hr); simplify_eq; lia ]).
Qed.

(** X21. After any run from the mount, one event calls
    [recognition.start()] at most once, and it does so exactly when the
    200 ms wait of [startRecognition] ends while the component holds an
    engine object; the call of [startRecognition] that armed the wait read
    [isSpeaking] as false. *)
Theorem start_origin (key : option jsstring) (hasSR secure : bool)
    (evs : list (Platform * Event)) (p : Platform) (ev : Event) :
  let w := run evs (mounted key hasSR secure) in
  (issued is_start (step p ev w) = issued is_start w
   \/ issued is_start (step p ev w) = S (issued is_start w))
  /\ (issued is_start (step p ev w) = S (issued is_start w)
      <-> exists t c rec,
            ev = TimerFired t
            /\ timers w !! t = Some (200, TSettle c)
            /\ isSpeaking c = false
            /\ recognitionRef w = Some rec).
Proof.
  intros w.
  assert (Hinv : settling w).
  { apply run_ind; [|intros p' ev' w'; apply step_settling].
    intros t d c. destruct hasSR, secure; cbn; rewrite lookup_empty; discriminate. }
  destruct (step_start p ev w) as [Hcases Hiff]. split; [exact Hcases|].
  rewrite Hiff. split.
  - intros (t & d & c & rec & Hev & Ht & Hrec).
    destruct (Hinv _ _ _ Ht) as [-> Hquiet]. eauto 10.
  - intros (t & c & rec & Hev & Ht & _ & Hrec). eauto 10.
Qed.

Lemma start_origin_witness :
  issued is_start
    (step (at_ 1200) (TimerFired 1)
       (run (ready_events "granted" ++ [(at_ 1000, VoiceClicked); (at_ 1000, Render)])
          (mounted key true true)))
  = S (issued is_start
         (run (ready_events "granted" ++ [(at_ 1000, VoiceClicked); (at_ 1000, Render)])
            (mounted key true true))).
Proof.
  refine (proj2 (proj2 (start_origin key true true
                          (ready_events "granted"
                           ++ [(at_ 1000, VoiceClicked); (at_ 1000, Render)])
                          (at_ 1200) (TimerFired 1))) _).
  exists 1%nat, (rendered (world_of (ready_events "granted"))), 1%nat.
  vm_compute. auto.
Defined.

(** X23. When [recognition.start()] throws, the call has been made, the
    starting and listening flags are cleared.  If the call of
    [startRecognition] read voice input as off (as the one made by the
    click that turns it on does), nothing further is armed.  If it read
    voice input as on, a retry is armed for 2000 ms; when it fires it
    stops the engine, leaves both flags cleared and arms the next start
    200 ms ahead, for the same closure, without consulting the current
    voice setting. *)
Theorem start_failure_retried (c : State) (p p' : Platform) (w : World)
    (t rec : nat) (d : N) :
  timers w !! t = Some (d, TSettle c) ->
  recognitionRef w = Some rec ->
  isSpeaking c = false ->
  start_throws p = true ->
  (voiceEnabled c = false ->
   let w' := step p (TimerFired t) w in
   timers w' = delete t (timers w)
   /\ trace w' = trace w ++ [RecStart rec]
   /\ isStartingRef w' = false
   /\ isListening (state w') = false)
  /\ (voiceEnabled c = true ->
      let w1 := step p (TimerFired t) w in
      let w2 := step p' (TimerFired (nextTimer w)) w1 in
      timers w1 = <[nextTimer w := (2000, TRetry c)]> (delete t (timers w))
      /\ nextTimer w1 = S (nextTimer w)
      /\ trace w1 = trace w ++ [RecStart rec]
      /\ isStartingRef w1 = false
      /\ isListening (state w1) = false
      /\ timers w2 !! nextTimer w = None
      /\ timers w2 !! S (nextTimer w) = Some (200, TSettle c)
      /\ trace w2 = trace w1 ++ [RecStop rec]
      /\ isStartingRef w2 = false
      /\ isListening (state w2) = false
      /\ voiceEnabled (state w2) = voiceEnabled (state w)).
Proof.
  intros Ht Hrec Hquiet Hthrows. split; intros Hvoice.
  - cbn [step]. rewrite Ht. cbn [run_task].
    unfold startRecognition_settled, engine_start. read_world.
    rewrite Hrec, Hthrows. unfold startRecognition_catch. rewrite Hvoice.
    now read_world.
  - cbn [step].
    rewrite Ht. cbn [run_task].
    unfold startRecognition_settled, engine_start. read_world.
    rewrite Hrec, Hthrows. unfold startRecognition_catch. rewrite Hvoice, Hquiet.
    read_world. rewrite lookup_insert_eq. cbn [run_task].
    unfold startRecognition. read_world. rewrite Hrec, Hquiet.
    repeat (split; [reflexivity|]).
    handler_cases; simplify_eq; read_world;
      rewrite ?lookup_insert_eq; repeat split; try reflexivity.
    all: rewrite lookup_insert_ne by lia.
    all: rewrite ?lookup_delete_eq; try reflexivity.
    all: match goal with
         | |- delete ?a (delete ?b ?m) !! ?b = None =>
             apply lookup_delete_None; right; apply lookup_delete_eq
         end.
Qed.

Lemma start_failure_retried_witness :
  trace (step (at_ 12200) (TimerFired (nextTimer (world_of restarting_events)))
           (step (start_fails 10200) (TimerFired 3) (world_of restarting_events)))
  = trace (step (start_fails 10200) (TimerFired 3) (world_of restarting_events))
    ++ [RecStop 1].
Proof.
  refine (proj1 (proj2 (proj2 (proj2 (proj2 (proj2 (proj2 (proj2 (proj2
    (start_failure_retried
       (rendered (world_of (starting_events "granted")))
       (start_fails 10200) (at_ 12200) (world_of restarting_events)
       3%nat 1%nat 200 _ _ _ _) _)))))))));
    vm_compute; reflexivity.
Defined.

Lemma clearRestartTimeout_tracked (w : World) :
  tracked w ->
  forall t d c, timers (clearRestartTimeout w) !! t <> Some (d, TRestart c).
Proof.
  intros Htracked t d c Hl. unfold clearRestartTimeout, clearTimeout in Hl.
  destruct (restartTimeoutRef w) as [t0|] eqn:Href; cbn in Hl.
  - apply lookup_delete_Some in Hl as [Hne Hl].
    pose proof (Htracked _ _ _ Hl). congruence.
  - pose proof (Htracked _ _ _ Hl). congruence.
Qed.

(** X15. After any run from the mount, [stopRecognition] and the cleanup
    of the recognition effect leave no callback of [restartRecognition]
    pending; in particular a click that switches voice input off cancels
    the restart that was scheduled. *)
Theorem stop_cancels_restart (key : option jsstring) (hasSR secure : bool)
    (evs : list (Platform * Event)) :
  let w := run evs (mounted key hasSR secure) in
  (forall t d c, timers (stopRecognition w) !! t <> Some (d, TRestart c))
  /\ (forall t d c, timers (recognitionEffect_cleanup w) !! t <> Some (d, TRestart c))
  /\ (forall p t d c,
        voice_disabled (rendered w) = false ->
        voiceEnabled (rendered w) = true ->
        timers (step p VoiceClicked w) !! t <> Some (d, TRestart c)
        /\ voiceEnabled (state (step p VoiceClicked w)) = false).
Proof.
  intros w.
  assert (Htracked : tracked w).
  { apply run_ind; [apply mounted_tracked | intros p ev w'; apply step_tracked]. }
  pose proof (clearRestartTimeout_tracked w Htracked) as Hclear.
  assert (Hstop : forall t d c, timers (stopRecognition w) !! t <> Some (d, TRestart c)).
  { intros t d c. specialize (Hclear t d c). revert Hclear.
    handler_cases; simplify_eq; auto. }
  split; [exact Hstop | split].
  - intros t d c. specialize (Hclear t d c). revert Hclear.
    handler_cases; simplify_eq; auto.
  - intros p t d c Hbutton Hvoice. cbn [step]. rewrite Hbutton.
    unfold voice_disabled in Hbutton.
    destruct (speechSupported (rendered w)) eqn:Hsup; [|discriminate].
    unfold toggleVoiceInput. rewrite Hsup, Hvoice. cbn [negb].
    specialize (Hstop t d c). revert Hstop. handler_cases; simplify_eq; auto.
Qed.

Lemma stop_cancels_restart_witness :
  voiceEnabled
    (state (step (at_ 9500) VoiceClicked
              (run (listening_events ++ [(at_ 9000, RecognitionEnded 1); (at_ 9000, Render)])
                 (mounted key true true))))
  = false.
Proof.
  refine (proj2 (proj2 (proj2 (stop_cancels_restart key true true
            (listening_events ++ [(at_ 9000, RecognitionEnded 1); (at_ 9000, Render)])))
            (at_ 9500) 2%nat 1000 initialState _ _));
    vm_compute; reflexivity.
Defined.

(** X14. After any run from the mount, once the render is committed, the
    engine object the component holds has handlers that close over a
    render with speech supported and with the current values of
    [voiceEnabled] and [isSpeaking]. *)
Theorem engine_handlers_current (key : option jsstring) (hasSR secure : bool)
    (evs : list (Platform * Event)) :
  let w := commit (run evs (mounted key hasSR secure)) in
  forall rec, recognitionRef w = Some rec ->
  exists c,
    recognitions w !! rec = Some c
    /\ speechSupported c = true
    /\ voiceEnabled c = voiceEnabled (state w)
    /\ isSpeaking c = isSpeaking (state w).
Proof.
  intros w rec Hrec.
  assert (Hcur : effect_current w)
    by apply commit_effect_current, reachable_effect_current.
  destruct Hcur as [Hobj Hnone].
  destruct (Hobj rec Hrec) as (c & Hc & Hdeps).
  unfold w in Hdeps. rewrite commit_deps in Hdeps. fold w in Hdeps.
  unfold deps_of in Hdeps. simplify_eq.
  exists c. repeat split; try assumption.
  destruct (speechSupported (state w)) eqn:Hsup; [congruence|].
  rewrite (Hnone eq_refl) in Hrec. discriminate.
Qed.

Lemma engine_handlers_current_witness :
  exists c,
    recognitions (commit (run listening_events (mounted key true true))) !! 1%nat = Some c
    /\ speechSupported c = true
    /\ voiceEnabled c
       = voiceEnabled (state (commit (run listening_events (mounted key true true))))
    /\ isSpeaking c
       = isSpeaking (state (commit (run listening_events (mounted key true true)))).
Proof.
  refine (engine_handlers_current key true true listening_events 1%nat _).
  vm_compute. reflexivity.
Defined.

(** ** Speaking *)

(** X12. The assistant starts to speak only when a backend request
    settles with a reply, for a call of [sendMessage] that read [muted] as
    false, and only with an API key.  In that step the new bot message is
    marked as spoken, listening ends, the engine object held is stopped
    first, and the reply as received (not the formatted text) is posted to
    the TTS service. *)
Theorem speech_origin (p : Platform) (ev : Event) (w : World) :
  isSpeaking (state w) = false ->
  isSpeaking (state (step p ev w)) = true ->
  exists r c input response,
    ev = Settled r (ChatResponse true (Some response))
    /\ requests w !! r = Some (RChat c input)
    /\ muted c = false
    /\ truthy_opt (openaiApiKey w) = true
    /\ currentSpeakingId (state (step p ev w)) = Some (now p + 1)
    /\ isListening (state (step p ev w)) = false
    /\ trace (step p ev w)
       = trace w
           ++ match recognitionRef w with
              | Some rec => [RecStop rec]
              | None => []
              end
           ++ [FetchTts response].
Proof.
  intros Hbefore; step_cases ev; simplify_eq; read_world;
    intros Hafter; try congruence.
  all: do 4 eexists; split; [reflexivity|]; split; [eassumption|];
    split; [now apply negb_true_iff|]; split; [now apply negb_false_iff|];
    split; [reflexivity|]; split; [reflexivity|];
    now rewrite <- ?(assoc_L (++)).
Qed.

Lemma speech_origin_witness :
  exists r c input response,
    Settled 1 (ChatResponse true (Some (lit "hello")))
    = Settled r (ChatResponse true (Some response))
    /\ requests asked !! r = Some (RChat c input)
    /\ muted c = false
    /\ truthy_opt (openaiApiKey asked) = true
    /\ currentSpeakingId
         (state (step (at_ 3000) (Settled 1 (ChatResponse true (Some (lit "hello")))) asked))
       = Some (now (at_ 3000) + 1)
    /\ isListening
         (state (step (at_ 3000) (Settled 1 (ChatResponse true (Some (lit "hello")))) asked))
       = false
    /\ trace (step (at_ 3000) (Settled 1 (ChatResponse true (Some (lit "hello")))) asked)
       = trace asked
           ++ match recognitionRef asked with
              | Some rec => [RecStop rec]
              | None => []
              end
           ++ [FetchTts response].
Proof.
  refine (speech_origin (at_ 3000)
            (Settled 1 (ChatResponse true (Some (lit "hello")))) asked _ _);
    vm_compute; reflexivity.
Defined.

Lemma step_marked (p : Platform) (ev : Event) (w : World) :
  marked w -> marked (step p ev w).
Proof.
  intros Hinv. unfold marked.
  step_cases ev; simplify_eq; read_world; unfold marked in Hinv;
    try assumption; try reflexivity;
    repeat case_match; simplify_eq;
    try assumption; try reflexivity;
    try (destruct Hinv as (Hs & m & Hin & Hid & Hbot); split; [assumption|];
         exists m; split; [apply in_or_app; now left | now split]);
    try (split; [reflexivity|]; eexists; split;
         [apply in_or_app; right; left; reflexivity | split; reflexivity]).
Qed.

(** X16. After any run from the mount, a message is marked as being
    spoken exactly while the assistant speaks, and the marked message is a
    bot message of the conversation. *)
Theorem speaking_message_marked (key : option jsstring) (hasSR secure : bool)
    (evs : list (Platform * Event)) :
  let w := run evs (mounted key hasSR secure) in
  match currentSpeakingId (state w) with
  | Some i =>
      isSpeaking (state w) = true
      /\ exists m, In m (messages (state w)) /\ id m = i /\ sender m = bot
  | None => isSpeaking (state w) = false
  end.
Proof.
  intros w. apply (run_ind marked).
  - now destruct hasSR, secure.
  - intros p ev w'. apply step_marked.
Qed.
